(** * DIVE25: dive25/utils/base64_decoder.py

    A shallow embedding of [decode_base64_file] and of the two library
    routines it calls, [str.strip] and [base64.b64decode], followed by the
    properties of the decoder utility.

    Conventions
    - a Python [str] is a list of Unicode code points ([list N]);
    - a Python [bytes] object is a [list byte];
    - the C locals of [binascii.a2b_base64] ([this_ch], [leftchar],
      [quad_pos], [pads]) are numbers in [N]; a store into the
      [unsigned char] output buffer truncates modulo 256;
    - the file system and the two standard streams are threaded through a
      state-and-exception monad; a file is known by its identity, not by
      the path that names it, so that two paths may name one file. *)

From Stdlib Require Import NArith ZArith Strings.Byte Ascii String.
From Stdlib Require Import DecimalString.
From stdpp Require Import gmap list.

Local Open Scope N_scope.

(** ** Strings and bytes *)

Abbreviation str := (list N).
Abbreviation bytes := (list byte).

(** A string literal of the source, as code points. *)
Definition lit (s : string) : str :=
  List.map N_of_ascii (list_ascii_of_string s).

(** [%zd] of the C format strings. *)
Definition decimal (n : N) : str :=
  lit (NilEmpty.string_of_uint (N.to_uint n)).

(** Store of an [int] into an [unsigned char]. *)
Definition uchar (n : N) : byte :=
  match Byte.of_N (n mod 256) with
  | Some b => b
  | None => x00
  end.

(** ** [str.strip()]

    CPython, Objects/unicodeobject.c: [Py_UNICODE_ISSPACE] is a table for
    code points below 128 and [_PyUnicode_IsWhitespace] above. *)
Definition Py_UNICODE_ISSPACE (ch : N) : bool :=
  if ch <? 128 then
    ((9 <=? ch) && (ch <=? 13)) || ((28 <=? ch) && (ch <=? 32))
  else
    (ch =? 0x85) || (ch =? 0xA0) || (ch =? 0x1680)
    || ((0x2000 <=? ch) && (ch <=? 0x200A))
    || (ch =? 0x2028) || (ch =? 0x2029) || (ch =? 0x202F)
    || (ch =? 0x205F) || (ch =? 0x3000).

Fixpoint lstrip (s : str) : str :=
  match s with
  | [] => []
  | ch :: rest => if Py_UNICODE_ISSPACE ch then lstrip rest else s
  end.

Definition rstrip (s : str) : str := rev (lstrip (rev s)).

Definition strip (s : str) : str := rstrip (lstrip s).

(** ** Exceptions *)

Inductive exn_class :=
  | OSError | UnicodeDecodeError | UnicodeEncodeError | ValueError
  | binascii_Error.

(** An instance of a subclass of [Exception]; [exn_msg] is [str(e)]. *)
Record exn := Exception { exn_class_of : exn_class; exn_msg : str }.

(** ** [binascii.a2b_base64], non-strict mode (CPython, Modules/binascii.c) *)

Definition BASE64_PAD : N := 61.

(** [table_a2b_base64]: the value of an alphabet character, 0 for the pad
    and -1 (255 as [unsigned char]) for every other character. *)
Definition table_a2b_base64 (ch : N) : N :=
  if (65 <=? ch) && (ch <=? 90) then ch - 65
  else if (97 <=? ch) && (ch <=? 122) then ch - 71
  else if (48 <=? ch) && (ch <=? 57) then ch + 4
  else if ch =? 43 then 62
  else if ch =? 47 then 63
  else if ch =? BASE64_PAD then 0
  else 255.

(** The code after the loop: a quad left open is an error. *)
Definition a2b_finish (quad_pos : N) (bin : bytes) : exn + bytes :=
  if quad_pos =? 0 then inr bin
  else if quad_pos =? 1 then
    inl (Exception binascii_Error
           (lit "Invalid base64-encoded string: number of data characters ("
            ++ decimal (N.of_nat (length bin) / 3 * 4 + 1)
            ++ lit ") cannot be 1 more than a multiple of 4"))
  else inl (Exception binascii_Error (lit "Incorrect padding")).

(** The [for] loop over [ascii_data]; [bin] is what has been stored in
    [bin_data] so far. *)
Fixpoint a2b_loop (ascii_data : list N) (quad_pos leftchar pads : N)
    (bin : bytes) : exn + bytes :=
  match ascii_data with
  | [] => a2b_finish quad_pos bin
  | this_ch :: rest =>
    if this_ch =? BASE64_PAD then
      if 2 <=? quad_pos then
        if 4 <=? quad_pos + (pads + 1) then inr bin
        else a2b_loop rest quad_pos leftchar (pads + 1) bin
      else a2b_loop rest quad_pos leftchar pads bin
    else
      let this_ch := table_a2b_base64 this_ch in
      if 64 <=? this_ch then a2b_loop rest quad_pos leftchar pads bin
      else if quad_pos =? 0 then
        a2b_loop rest 1 this_ch 0 bin
      else if quad_pos =? 1 then
        a2b_loop rest 2 (N.land this_ch 0x0f) 0
          (bin ++ [uchar (N.lor (N.shiftl leftchar 2) (N.shiftr this_ch 4))])
      else if quad_pos =? 2 then
        a2b_loop rest 3 (N.land this_ch 0x03) 0
          (bin ++ [uchar (N.lor (N.shiftl leftchar 4) (N.shiftr this_ch 2))])
      else
        a2b_loop rest 0 0 0
          (bin ++ [uchar (N.lor (N.shiftl leftchar 6) this_ch)])
  end.

Definition a2b_base64 (data : list N) : exn + bytes :=
  a2b_loop data 0 0 0 [].

(** ** [base64.b64decode(s)] with its default arguments (Lib/base64.py)

    [_bytes_from_decode_data] encodes a [str] argument as ASCII and turns
    the [UnicodeEncodeError] into a [ValueError]. *)
Definition is_ascii (ch : N) : bool := ch <? 128.

Definition b64decode (s : str) : exn + bytes :=
  if forallb is_ascii s then a2b_base64 s
  else inl (Exception ValueError
              (lit "string argument should contain only ASCII characters")).

(** ** Standard base64 encoding (RFC 4648, section 4)

    The encoder is not part of the program; it is the reference the
    decoder is compared with. *)
Definition table_b2a_base64 : str :=
  lit "ABCDEFGHIJKLMNOPQRSTUVWXYZabcdefghijklmnopqrstuvwxyz0123456789+/".

Definition b2a (sextet : N) : N := nth (N.to_nat sextet) table_b2a_base64 0.

Definition sextet0 (a : byte) : N := N.shiftr (Byte.to_N a) 2.
Definition sextet1 (a b : byte) : N :=
  N.lor (N.shiftl (N.land (Byte.to_N a) 3) 4) (N.shiftr (Byte.to_N b) 4).
Definition sextet2 (b c : byte) : N :=
  N.lor (N.shiftl (N.land (Byte.to_N b) 15) 2) (N.shiftr (Byte.to_N c) 6).
Definition sextet3 (c : byte) : N := N.land (Byte.to_N c) 63.

Fixpoint b64encode (s : bytes) : str :=
  match s with
  | [] => []
  | [a] =>
    [b2a (sextet0 a); b2a (sextet1 a x00); BASE64_PAD; BASE64_PAD]
  | [a; b] =>
    [b2a (sextet0 a); b2a (sextet1 a b); b2a (sextet2 b x00); BASE64_PAD]
  | a :: b :: c :: rest =>
    b2a (sextet0 a) :: b2a (sextet1 a b) :: b2a (sextet2 b c)
      :: b2a (sextet3 c) :: b64encode rest
  end.

(** ** The process state and its monad

    The program touches the outside world in five places: it reads the
    input file as text, opens the output file for binary writing, writes
    to it, prints, and leaves its standard output to be flushed when the
    interpreter exits.  [Env] holds what the operating system answers:
    - [read_text p]: the result of [open(p, 'r')] followed by [f.read()],
      the text of the file or the exception raised (missing file,
      directory, permissions, undecodable bytes);
    - [open_wb p]: the exception [open(p, 'wb')] raises, if any;
    - [locate p]: the file that the path [p] names, or would create; two
      paths ([in.b64] and [./in.b64], a link and its target) may name the
      same file;
    - [write_fault p data]: if writing [data] to [p] fails, how many bytes
      reached the file and the exception raised;
    - [print_fault s]: the exception [print(s)] raises on standard output,
      if any (a path that the encoding of the stream cannot express, a
      closed pipe);
    - [exit_flush_fault]: when the flush of standard output fails as the
      interpreter exits after a normal return, the report that the
      interpreter writes on standard error.
    [State] holds what the program changes: the binary content of the
    files and the text handed to the two standard streams.  Printing to
    standard error is taken not to fail. *)

Record Env := {
  read_text : list N -> exn + list N;
  open_wb : list N -> option exn;
  locate : list N -> N;
  write_fault : list N -> list byte -> option (nat * exn);
  print_fault : list N -> option exn;
  exit_flush_fault : option (list N)
}.

Record State := {
  disk : gmap N (list byte);
  stdout : list N;
  stderr : list N
}.

(** What interrupts the normal flow: an exception below [Exception], or
    the [SystemExit] of [sys.exit], which [except Exception] lets
    through. *)
Inductive signal :=
  | Raise (e : exn)
  | SystemExit (code : Z).

Definition M (A : Type) : Type := State -> (signal + A) * State.

#[global] Instance M_ret : MRet M := fun A (a : A) st => (inr a, st).

#[global] Instance M_bind : MBind M := fun A B (k : A -> M B) (m : M A) st =>
  match m st with
  | (inr a, st') => k a st'
  | (inl sg, st') => (inl sg, st')
  end.

(** A library call that returns or raises. *)
Definition lift {A} (r : exn + A) : M A :=
  fun st =>
    match r with
    | inr a => (inr a, st)
    | inl e => (inl (Raise e), st)
    end.

(** [try: body except Exception as e: handler e] *)
Definition try_except {A} (body : M A) (handler : exn -> M A) : M A :=
  fun st =>
    match body st with
    | (inl (Raise e), st') => handler e st'
    | r => r
    end.

Definition sys_exit (code : Z) : M unit :=
  fun st => (inl (SystemExit code), st).

(** [print(s, file=sys.stderr)] *)
Definition print_stderr (s : str) : M unit :=
  fun st =>
    (inr tt, {| disk := disk st; stdout := stdout st;
                stderr := stderr st ++ s ++ [10] |}).

Section Decoder.

Variable env : Env.

(** [print(s)]: the text and its newline reach standard output, or the
    call raises and nothing does. *)
Definition print (s : str) : M unit :=
  fun st =>
    match print_fault env s with
    | Some e => (inl (Raise e), st)
    | None =>
      (inr tt, {| disk := disk st; stdout := stdout st ++ s ++ [10];
                  stderr := stderr st |})
    end.

(** [with open(path, 'r') as f: ... f.read()] *)
Definition read_file (path : str) : M str := lift (read_text env path).

(** [with open(path, 'wb') as f: f.write(data)]: opening creates or
    truncates the file that [path] names; a failing write leaves what was
    written. *)
Definition write_file (path : str) (data : bytes) : M unit :=
  fun st =>
    match open_wb env path with
    | Some e => (inl (Raise e), st)
    | None =>
      match write_fault env path data with
      | Some (n, e) =>
        (inl (Raise e),
         {| disk := <[locate env path := take n data]> (disk st);
            stdout := stdout st; stderr := stderr st |})
      | None =>
        (inr tt,
         {| disk := <[locate env path := data]> (disk st);
            stdout := stdout st; stderr := stderr st |})
      end
    end.

(** [if not output_file: output_file = input_file + '.decoded']: [None]
    and the empty string are both false. *)
Definition output_path (input_file : str) (output_file : option str) : str :=
  match output_file with
  | None => input_file ++ lit ".decoded"
  | Some [] => input_file ++ lit ".decoded"
  | Some q => q
  end.

(** Lines 11 and 13: the content buffer and the decoded buffer. *)
Definition decode_content (text : str) : exn + bytes :=
  b64decode (strip text).

Definition decode_base64_file (input_file : str) (output_file : option str)
    : M unit :=
  try_except
    (text ← read_file input_file;
     let content := strip text in
     decoded ← lift (b64decode content);
     let output_file := output_path input_file output_file in
     write_file output_file decoded;;
     print (lit "Decoded " ++ input_file ++ lit " to " ++ output_file))
    (fun e =>
     print_stderr (lit "Error: " ++ exn_msg e);;
     sys_exit 1).

(** The end of the script after a normal return: the interpreter flushes
    standard output and exits with status 0; when that flush fails it
    reports the failure on standard error and exits with status 120. *)
Definition at_exit (st : State) : Z * State :=
  match exit_flush_fault env with
  | None => (0%Z, st)
  | Some report =>
    (120%Z, {| disk := disk st; stdout := stdout st;
               stderr := stderr st ++ report |})
  end.

(** The [__main__] block after [parser.parse_args()]: the exit status of
    the process and the state it leaves.  [sys.exit(code)] ends the
    process with [code], nothing being pending on standard output; an
    uncaught exception would end it with status 1. *)
Record Namespace := { input : list N; output : option (list N) }.

Definition main (args : Namespace) (st : State) : Z * State :=
  match decode_base64_file (input args) (output args) st with
  | (inr _, st') => at_exit st'
  | (inl (SystemExit code), st') => (code, st')
  | (inl (Raise _), st') => (1%Z, st')
  end.

End Decoder.

(** ** Vocabulary of the properties *)

(** The base64 alphabet: A-Z, a-z, 0-9, + and /. *)
Definition base64_alphabet (ch : N) : bool :=
  ((65 <=? ch) && (ch <=? 90)) || ((97 <=? ch) && (ch <=? 122))
  || ((48 <=? ch) && (ch <=? 57)) || (ch =? 43) || (ch =? 47).

(** An alphabet character or the pad. *)
Definition base64_char (ch : N) : bool :=
  base64_alphabet ch || (ch =? BASE64_PAD).

(** The text of line 21, [Decoded <input> to <output>]. *)
Definition confirmation (input_file : list N)
    (output_file : option (list N)) : list N :=
  lit "Decoded " ++ input_file ++ lit " to "
  ++ output_path input_file output_file.

(** The failures inside the [try] block, with the exception each one
    raises: the read / decode / write sequence, and the confirmation that
    follows it. *)
Inductive run_fails (env : Env) (input_file : list N)
    (output_file : option (list N)) : exn -> Prop :=
  | input_access_error e :
      read_text env input_file = inl e ->
      run_fails env input_file output_file e
  | decode_error text e :
      read_text env input_file = inr text ->
      decode_content text = inl e ->
      run_fails env input_file output_file e
  | output_access_error text decoded e :
      read_text env input_file = inr text ->
      decode_content text = inr decoded ->
      open_wb env (output_path input_file output_file) = Some e ->
      run_fails env input_file output_file e
  | output_write_error text decoded n e :
      read_text env input_file = inr text ->
      decode_content text = inr decoded ->
      open_wb env (output_path input_file output_file) = None ->
      write_fault env (output_path input_file output_file) decoded
        = Some (n, e) ->
      run_fails env input_file output_file e
  | confirmation_error text decoded e :
      read_text env input_file = inr text ->
      decode_content text = inr decoded ->
      open_wb env (output_path input_file output_file) = None ->
      write_fault env (output_path input_file output_file) decoded = None ->
      print_fault env (confirmation input_file output_file) = Some e ->
      run_fails env input_file output_file e.

(** An ASCII character that [strip] keeps. *)
Definition plain (ch : N) : bool :=
  is_ascii ch && negb (Py_UNICODE_ISSPACE ch).

(** The state after the [except] clause has reported [e]. *)
Definition reported (e : exn) (st : State) : State :=
  {| disk := disk st; stdout := stdout st;
     stderr := stderr st ++ (lit "Error: " ++ exn_msg e) ++ [10] |}.

(** The state after [data] has been written to the file that [path]
    names. *)
Definition written (env : Env) (path : list N) (data : list byte)
    (st : State) : State :=
  {| disk := <[locate env path := data]> (disk st);
     stdout := stdout st; stderr := stderr st |}.

(** The state after a run that wrote [data] to [path] and confirmed it. *)
Definition completed (env : Env) (input_file path : list N)
    (data : list byte) (st : State) : State :=
  {| disk := <[locate env path := data]> (disk st);
     stdout := stdout st
               ++ (lit "Decoded " ++ input_file ++ lit " to " ++ path) ++ [10];
     stderr := stderr st |}.

(** The system [env], except for what it answers when [path] is opened
    for writing. *)
Definition with_write_answers (env : Env) (path : list N)
    (opened : option exn) (file : N)
    (fault : list byte -> option (nat * exn)) : Env :=
  {| read_text := read_text env;
     open_wb := fun p => if decide (p = path) then opened else open_wb env p;
     locate := fun p => if decide (p = path) then file else locate env p;
     write_fault := fun p =>
       if decide (p = path) then fault else write_fault env p;
     print_fault := print_fault env;
     exit_flush_fault := exit_flush_fault env |}.

(** Inside a quad the characters consumed are ahead of the bytes stored:
    after [n] alphabet characters and [b] stored bytes,
    [4 * b + quad_slack quad_pos = 3 * n]. *)
Definition quad_slack (quad_pos : N) : nat :=
  if quad_pos =? 0 then 0%nat
  else if quad_pos =? 1 then 3%nat
  else if quad_pos =? 2 then 2%nat
  else 1%nat.

(** All bytes and all sextets, for proofs by enumeration. *)
Definition all_bytes : list byte :=
  List.map (fun n => uchar (N.of_nat n)) (seq 0 256).

Definition all_sextets : list N := List.map N.of_nat (seq 0 64).

(** ** Sample runs

    A system with one readable file, [in.b64], holding [text]; every other
    path is missing.  A path names the file numbered by its characters, a
    leading [./] not counting, so that [./in.b64] and [in.b64] are one
    file.  Every path is writable unless it is [/ro/out]; no write fails
    half way unless the target is [/full/out], where two bytes reach the
    file.  Standard output is in UTF-8 and is flushed without fault: it
    refuses a text that holds a lone surrogate, as a path does whose bytes
    are not UTF-8, with the message of the UTF-8 codec. *)
Definition file_number (path : list N) : N :=
  fold_left (fun n ch => n * 1114112 + ch + 1) path 0.

Definition is_surrogate (ch : N) : bool := (0xD800 <=? ch) && (ch <=? 0xDFFF).

Definition hex_digit (n : N) : N := if n <? 10 then 48 + n else 87 + n.

Definition hex4 (ch : N) : list N :=
  [hex_digit (ch / 4096); hex_digit (ch / 256 mod 16);
   hex_digit (ch / 16 mod 16); hex_digit (ch mod 16)].

(** The position of the last surrogate of the run that [pos] is in. *)
Fixpoint surrogates_end (s : list N) (pos : N) : N :=
  match s with
  | ch :: rest => if is_surrogate ch then surrogates_end rest (pos + 1) else pos
  | [] => pos
  end.

(** The first run of surrogates: its position, first character and end. *)
Fixpoint first_surrogates (s : list N) (pos : N) : option (N * N * N) :=
  match s with
  | [] => None
  | ch :: rest =>
    if is_surrogate ch then Some (pos, ch, surrogates_end rest pos)
    else first_surrogates rest (pos + 1)
  end.

Definition utf8_encode_error (s : list N) : option exn :=
  match first_surrogates s 0 with
  | None => None
  | Some (pos, ch, last) =>
    Some (Exception UnicodeEncodeError
            (if pos =? last then
               lit "'utf-8' codec can't encode character '\u" ++ hex4 ch
               ++ lit "' in position " ++ decimal pos
               ++ lit ": surrogates not allowed"
             else
               lit "'utf-8' codec can't encode characters in position "
               ++ decimal pos ++ lit "-" ++ decimal last
               ++ lit ": surrogates not allowed"))
  end.

Definition sample_env (text : list N) : Env := {|
  read_text := fun p =>
    if decide (p = lit "in.b64") then inr text
    else inl (Exception OSError
                (lit "[Errno 2] No such file or directory: '" ++ p ++ lit "'"));
  open_wb := fun p =>
    if decide (p = lit "/ro/out") then
      Some (Exception OSError
              (lit "[Errno 13] Permission denied: '/ro/out'"))
    else None;
  locate := fun p =>
    match p with
    | 46 :: 47 :: q => file_number q
    | _ => file_number p
    end;
  write_fault := fun p _ =>
    if decide (p = lit "/full/out") then
      Some (2%nat, Exception OSError
                     (lit "[Errno 28] No space left on device"))
    else None;
  print_fault := utf8_encode_error;
  exit_flush_fault := None
|}.

Definition fresh : State := {| disk := ∅; stdout := []; stderr := [] |}.

(** [python base64_decoder.py in.b64] and
    [python base64_decoder.py in.b64 -o q] *)
Definition plain_call : Namespace :=
  {| input := lit "in.b64"; output := None |}.

Definition call_with_output (q : list N) : Namespace :=
  {| input := lit "in.b64"; output := Some q |}.

(** The bytes of [Hello, World!] and of [ABC]. *)
Definition hello_world : list byte :=
  [x48; x65; x6c; x6c; x6f; x2c; x20; x57; x6f; x72; x6c; x64; x21].

Definition abc : list byte := [x41; x42; x43].

(** * Properties *)

(** ** Finite enumeration of bytes and sextets *)

Lemma uchar_to_N (b : byte) : uchar (Byte.to_N b) = b.
Proof.
  unfold uchar.
  pose proof (Byte.to_N_bounded b) as Hb.
  rewrite N.mod_small by lia.
  now rewrite Byte.of_to_N.
Qed.

Lemma in_all_bytes (b : byte) : In b all_bytes.
Proof.
  apply in_map_iff. exists (N.to_nat (Byte.to_N b)). split.
  - rewrite N2Nat.id. apply uchar_to_N.
  - apply in_seq. pose proof (Byte.to_N_bounded b). lia.
Qed.

Lemma in_all_sextets (s : N) : s < 64 -> In s all_sextets.
Proof.
  intros Hs. apply in_map_iff. exists (N.to_nat s). split.
  - apply N2Nat.id.
  - apply in_seq. lia.
Qed.

Lemma byte_forall (P : byte -> bool) :
  forallb P all_bytes = true -> forall b, P b = true.
Proof.
  intros H b. rewrite forallb_forall in H. apply H, in_all_bytes.
Qed.

Lemma byte_forall2 (P : byte -> byte -> bool) :
  forallb (fun a => forallb (P a) all_bytes) all_bytes = true ->
  forall a b, P a b = true.
Proof.
  intros H a b. apply byte_forall. revert a. now apply byte_forall.
Qed.

Lemma sextet_forall (P : N -> bool) :
  forallb P all_sextets = true -> forall s, s < 64 -> P s = true.
Proof.
  intros H s Hs. rewrite forallb_forall in H. now apply H, in_all_sextets.
Qed.

(** ** The two tables are inverse to each other on sextets *)

Lemma b2a_not_pad (s : N) : s < 64 -> (b2a s =? BASE64_PAD) = false.
Proof.
  intros Hs.
  apply negb_true_iff.
  revert s Hs. apply (sextet_forall (fun s => negb (b2a s =? BASE64_PAD))).
  now vm_compute.
Qed.

Lemma a2b_b2a (s : N) : s < 64 -> table_a2b_base64 (b2a s) = s.
Proof.
  intros Hs. apply N.eqb_eq.
  revert s Hs. apply (sextet_forall (fun s => table_a2b_base64 (b2a s) =? s)).
  now vm_compute.
Qed.

Lemma sextet0_lt a : sextet0 a < 64.
Proof.
  apply N.ltb_lt. revert a.
  apply (byte_forall (fun a => sextet0 a <? 64)). now vm_compute.
Qed.

Lemma sextet1_lt a b : sextet1 a b < 64.
Proof.
  apply N.ltb_lt. revert a b.
  apply (byte_forall2 (fun a b => sextet1 a b <? 64)). now vm_compute.
Qed.

Lemma sextet2_lt b c : sextet2 b c < 64.
Proof.
  apply N.ltb_lt. revert b c.
  apply (byte_forall2 (fun b c => sextet2 b c <? 64)). now vm_compute.
Qed.

Lemma sextet3_lt c : sextet3 c < 64.
Proof.
  apply N.ltb_lt. revert c.
  apply (byte_forall (fun c => sextet3 c <? 64)). now vm_compute.
Qed.

(** ** The bytes rebuilt by the decoder from the sextets of the encoder *)

Lemma byte0_rebuilt a b :
  uchar (N.lor (N.shiftl (sextet0 a) 2) (N.shiftr (sextet1 a b) 4)) = a.
Proof.
  apply Byte.byte_dec_bl. revert a b.
  apply (byte_forall2 (fun a b => Byte.eqb
    (uchar (N.lor (N.shiftl (sextet0 a) 2) (N.shiftr (sextet1 a b) 4))) a)).
  now vm_compute.
Qed.

Lemma sextet1_low a b : N.land (sextet1 a b) 0x0f = N.shiftr (Byte.to_N b) 4.
Proof.
  apply N.eqb_eq. revert a b.
  apply (byte_forall2 (fun a b =>
    N.land (sextet1 a b) 0x0f =? N.shiftr (Byte.to_N b) 4)).
  now vm_compute.
Qed.

Lemma sextet2_low b c : N.land (sextet2 b c) 0x03 = N.shiftr (Byte.to_N c) 6.
Proof.
  apply N.eqb_eq. revert b c.
  apply (byte_forall2 (fun b c =>
    N.land (sextet2 b c) 0x03 =? N.shiftr (Byte.to_N c) 6)).
  now vm_compute.
Qed.

Lemma byte1_rebuilt a b c :
  uchar (N.lor (N.shiftl (N.land (sextet1 a b) 0x0f) 4)
               (N.shiftr (sextet2 b c) 2)) = b.
Proof.
  rewrite sextet1_low.
  apply Byte.byte_dec_bl. revert b c.
  apply (byte_forall2 (fun b c => Byte.eqb
    (uchar (N.lor (N.shiftl (N.shiftr (Byte.to_N b) 4) 4)
                  (N.shiftr (sextet2 b c) 2))) b)).
  now vm_compute.
Qed.

Lemma byte2_rebuilt b c :
  uchar (N.lor (N.shiftl (N.land (sextet2 b c) 0x03) 6) (sextet3 c)) = c.
Proof.
  rewrite sextet2_low.
  apply Byte.byte_dec_bl. revert c.
  apply (byte_forall (fun c => Byte.eqb
    (uchar (N.lor (N.shiftl (N.shiftr (Byte.to_N c) 6) 6) (sextet3 c))) c)).
  now vm_compute.
Qed.

(** ** One step of the decoding loop *)

Lemma a2b_loop_pad rest quad_pos leftchar pads bin :
  a2b_loop (BASE64_PAD :: rest) quad_pos leftchar pads bin =
  if 2 <=? quad_pos then
    if 4 <=? quad_pos + (pads + 1) then inr bin
    else a2b_loop rest quad_pos leftchar (pads + 1) bin
  else a2b_loop rest quad_pos leftchar pads bin.
Proof. reflexivity. Qed.

(** A character that is neither the pad nor in the alphabet is skipped. *)
Lemma a2b_loop_skip ch rest quad_pos leftchar pads bin :
  (ch =? BASE64_PAD) = false ->
  (64 <=? table_a2b_base64 ch) = true ->
  a2b_loop (ch :: rest) quad_pos leftchar pads bin =
  a2b_loop rest quad_pos leftchar pads bin.
Proof. intros Hp Ht. cbn [a2b_loop]. now rewrite Hp, Ht. Qed.

(** An alphabet character advances the quad. *)
Lemma a2b_loop_data ch rest quad_pos leftchar pads bin :
  (ch =? BASE64_PAD) = false ->
  (64 <=? table_a2b_base64 ch) = false ->
  a2b_loop (ch :: rest) quad_pos leftchar pads bin =
  let this_ch := table_a2b_base64 ch in
  if quad_pos =? 0 then a2b_loop rest 1 this_ch 0 bin
  else if quad_pos =? 1 then
    a2b_loop rest 2 (N.land this_ch 0x0f) 0
      (bin ++ [uchar (N.lor (N.shiftl leftchar 2) (N.shiftr this_ch 4))])
  else if quad_pos =? 2 then
    a2b_loop rest 3 (N.land this_ch 0x03) 0
      (bin ++ [uchar (N.lor (N.shiftl leftchar 4) (N.shiftr this_ch 2))])
  else
    a2b_loop rest 0 0 0
      (bin ++ [uchar (N.lor (N.shiftl leftchar 6) this_ch)]).
Proof. intros Hp Ht. cbn [a2b_loop]. now rewrite Hp, Ht. Qed.

Section QuadSteps.

Variables (s : N) (rest : list N) (leftchar pads : N) (bin : list byte).
Hypothesis s_lt : s < 64.

Lemma b2a_is_data :
  (b2a s =? BASE64_PAD) = false /\ (64 <=? table_a2b_base64 (b2a s)) = false.
Proof.
  split; [now apply b2a_not_pad|].
  rewrite a2b_b2a by assumption. now apply N.leb_gt.
Qed.

Lemma a2b_loop_quad0 :
  a2b_loop (b2a s :: rest) 0 leftchar pads bin = a2b_loop rest 1 s 0 bin.
Proof.
  destruct b2a_is_data as [Hp Ht].
  rewrite a2b_loop_data by assumption. cbv zeta. now rewrite a2b_b2a.
Qed.

Lemma a2b_loop_quad1 :
  a2b_loop (b2a s :: rest) 1 leftchar pads bin =
  a2b_loop rest 2 (N.land s 0x0f) 0
    (bin ++ [uchar (N.lor (N.shiftl leftchar 2) (N.shiftr s 4))]).
Proof.
  destruct b2a_is_data as [Hp Ht].
  rewrite a2b_loop_data by assumption. cbv zeta. now rewrite a2b_b2a.
Qed.

Lemma a2b_loop_quad2 :
  a2b_loop (b2a s :: rest) 2 leftchar pads bin =
  a2b_loop rest 3 (N.land s 0x03) 0
    (bin ++ [uchar (N.lor (N.shiftl leftchar 4) (N.shiftr s 2))]).
Proof.
  destruct b2a_is_data as [Hp Ht].
  rewrite a2b_loop_data by assumption. cbv zeta. now rewrite a2b_b2a.
Qed.

Lemma a2b_loop_quad3 :
  a2b_loop (b2a s :: rest) 3 leftchar pads bin =
  a2b_loop rest 0 0 0 (bin ++ [uchar (N.lor (N.shiftl leftchar 6) s)]).
Proof.
  destruct b2a_is_data as [Hp Ht].
  rewrite a2b_loop_data by assumption. cbv zeta. now rewrite a2b_b2a.
Qed.

End QuadSteps.

(** ** Decoding what the encoder produced *)

(** Induction on a byte string three bytes at a time, as the encoder
    consumes it. *)
Lemma bytes_ind3 (P : list byte -> Prop) :
  P [] ->
  (forall a, P [a]) ->
  (forall a b, P [a; b]) ->
  (forall a b c rest, P rest -> P (a :: b :: c :: rest)) ->
  forall s, P s.
Proof.
  intros H0 H1 H2 H3.
  fix IH 1.
  intros [|a [|b [|c rest]]];
    [exact H0 | apply H1 | apply H2 | apply H3, IH].
Qed.

Lemma a2b_loop_b64encode (s : list byte) (leftchar : N) (bin : list byte) :
  a2b_loop (b64encode s) 0 leftchar 0 bin = inr (bin ++ s).
Proof.
  revert leftchar bin. induction s as [|a|a b|a b c rest IH] using bytes_ind3;
    intros leftchar bin; cbn [b64encode].
  - cbn. now rewrite app_nil_r.
  - rewrite a2b_loop_quad0 by apply sextet0_lt.
    rewrite a2b_loop_quad1 by apply sextet1_lt.
    rewrite byte0_rebuilt. reflexivity.
  - rewrite a2b_loop_quad0 by apply sextet0_lt.
    rewrite a2b_loop_quad1 by apply sextet1_lt.
    rewrite a2b_loop_quad2 by apply sextet2_lt.
    rewrite byte0_rebuilt, byte1_rebuilt.
    rewrite <- app_assoc. reflexivity.
  - rewrite a2b_loop_quad0 by apply sextet0_lt.
    rewrite a2b_loop_quad1 by apply sextet1_lt.
    rewrite a2b_loop_quad2 by apply sextet2_lt.
    rewrite a2b_loop_quad3 by apply sextet3_lt.
    rewrite byte0_rebuilt, byte1_rebuilt, byte2_rebuilt.
    rewrite IH, <- !app_assoc. reflexivity.
Qed.

Lemma a2b_base64_b64encode (s : list byte) : a2b_base64 (b64encode s) = inr s.
Proof. unfold a2b_base64. now rewrite a2b_loop_b64encode. Qed.

(** ** [strip] *)

Lemma lstrip_spaces (w : list N) :
  forallb Py_UNICODE_ISSPACE w = true -> lstrip w = [].
Proof.
  induction w as [|ch w IH]; cbn; [easy|].
  intros [Hc Hw]%andb_true_iff. rewrite Hc. auto.
Qed.

Lemma lstrip_app_spaces (w s : list N) :
  forallb Py_UNICODE_ISSPACE w = true -> lstrip (w ++ s) = lstrip s.
Proof.
  induction w as [|ch w IH]; cbn; [easy|].
  intros [Hc Hw]%andb_true_iff. rewrite Hc. auto.
Qed.

Lemma forallb_rev {A} (f : A -> bool) (l : list A) :
  forallb f (rev l) = forallb f l.
Proof.
  induction l as [|x l IH]; cbn; [easy|].
  rewrite forallb_app, IH. cbn. rewrite andb_true_r. apply andb_comm.
Qed.

Lemma rstrip_app_spaces (s w : list N) :
  forallb Py_UNICODE_ISSPACE w = true -> rstrip (s ++ w) = rstrip s.
Proof.
  intros Hw. unfold rstrip. rewrite rev_app_distr.
  rewrite lstrip_app_spaces; [easy|]. now rewrite forallb_rev.
Qed.

Lemma strip_app_spaces_r (s w : list N) :
  forallb Py_UNICODE_ISSPACE w = true -> strip (s ++ w) = strip s.
Proof.
  intros Hw. unfold strip. induction s as [|ch s IH].
  - cbn [app lstrip]. now rewrite lstrip_spaces.
  - cbn [app lstrip]. destruct (Py_UNICODE_ISSPACE ch); [exact IH|].
    now apply (rstrip_app_spaces (ch :: s)).
Qed.

Lemma strip_padded (w1 s w2 : list N) :
  forallb Py_UNICODE_ISSPACE w1 = true ->
  forallb Py_UNICODE_ISSPACE w2 = true ->
  strip (w1 ++ s ++ w2) = strip s.
Proof.
  intros H1 H2. rewrite <- (strip_app_spaces_r s w2 H2).
  unfold strip. now rewrite lstrip_app_spaces.
Qed.

Lemma lstrip_no_space (s : list N) :
  forallb (fun ch => negb (Py_UNICODE_ISSPACE ch)) s = true -> lstrip s = s.
Proof.
  destruct s as [|ch s]; cbn; [easy|].
  intros [Hc _]%andb_true_iff. now apply negb_true_iff in Hc as ->.
Qed.

Lemma strip_no_space (s : list N) :
  forallb (fun ch => negb (Py_UNICODE_ISSPACE ch)) s = true -> strip s = s.
Proof.
  intros Hs. unfold strip, rstrip.
  rewrite (lstrip_no_space s Hs).
  rewrite lstrip_no_space by now rewrite forallb_rev.
  apply rev_involutive.
Qed.

(** ** The characters of an encoding *)

Lemma b2a_plain (s : N) : s < 64 -> plain (b2a s) = true.
Proof.
  revert s. apply (sextet_forall (fun s => plain (b2a s))). now vm_compute.
Qed.

Lemma b64encode_plain (s : list byte) : forallb plain (b64encode s) = true.
Proof.
  induction s as [|a|a b|a b c rest IH] using bytes_ind3;
    cbn [b64encode forallb].
  - reflexivity.
  - now rewrite !b2a_plain by auto using sextet0_lt, sextet1_lt.
  - now rewrite !b2a_plain by auto using sextet0_lt, sextet1_lt, sextet2_lt.
  - rewrite !b2a_plain
      by auto using sextet0_lt, sextet1_lt, sextet2_lt, sextet3_lt.
    exact IH.
Qed.

Lemma forallb_impl {A} (f g : A -> bool) (l : list A) :
  (forall x, f x = true -> g x = true) ->
  forallb f l = true -> forallb g l = true.
Proof.
  intros Hfg. rewrite !forallb_forall. auto.
Qed.

Lemma decode_content_b64encode (s : list byte) :
  decode_content (b64encode s) = inr s.
Proof.
  pose proof (b64encode_plain s) as Hp.
  unfold decode_content, b64decode.
  rewrite strip_no_space.
  - rewrite (forallb_impl plain is_ascii); [apply a2b_base64_b64encode| |easy].
    unfold plain. now intros x [? _]%andb_true_iff.
  - revert Hp. apply forallb_impl.
    unfold plain. now intros x [_ ?]%andb_true_iff.
Qed.

(** ** The ways through [decode_base64_file] *)

Section Runs.

Variables (env : Env) (input_file : list N) (output_file : option (list N)).
Variable st : State.

Abbreviation out := (output_path input_file output_file).

Ltac run_through :=
  unfold decode_base64_file, try_except, mbind, M_bind, read_file, lift,
    write_file, print.

Lemma run_read_fails e :
  read_text env input_file = inl e ->
  decode_base64_file env input_file output_file st
  = (inl (SystemExit 1), reported e st).
Proof. intros Hr. run_through. now rewrite Hr. Qed.

Lemma run_decode_fails text e :
  read_text env input_file = inr text ->
  decode_content text = inl e ->
  decode_base64_file env input_file output_file st
  = (inl (SystemExit 1), reported e st).
Proof.
  intros Hr Hd. unfold decode_content in Hd.
  run_through. now rewrite Hr, Hd.
Qed.

Lemma run_open_fails text decoded e :
  read_text env input_file = inr text ->
  decode_content text = inr decoded ->
  open_wb env out = Some e ->
  decode_base64_file env input_file output_file st
  = (inl (SystemExit 1), reported e st).
Proof.
  intros Hr Hd Ho. unfold decode_content in Hd.
  run_through. now rewrite Hr, Hd, Ho.
Qed.

Lemma run_write_fails text decoded n e :
  read_text env input_file = inr text ->
  decode_content text = inr decoded ->
  open_wb env out = None ->
  write_fault env out decoded = Some (n, e) ->
  decode_base64_file env input_file output_file st
  = (inl (SystemExit 1), reported e (written env out (take n decoded) st)).
Proof.
  intros Hr Hd Ho Hw. unfold decode_content in Hd.
  run_through. now rewrite Hr, Hd, Ho, Hw.
Qed.

Lemma run_print_fails text decoded e :
  read_text env input_file = inr text ->
  decode_content text = inr decoded ->
  open_wb env out = None ->
  write_fault env out decoded = None ->
  print_fault env (confirmation input_file output_file) = Some e ->
  decode_base64_file env input_file output_file st
  = (inl (SystemExit 1), reported e (written env out decoded st)).
Proof.
  intros Hr Hd Ho Hw Hp. unfold decode_content in Hd.
  unfold confirmation in Hp.
  run_through. now rewrite Hr, Hd, Ho, Hw, Hp.
Qed.

Lemma run_succeeds text decoded :
  read_text env input_file = inr text ->
  decode_content text = inr decoded ->
  open_wb env out = None ->
  write_fault env out decoded = None ->
  print_fault env (confirmation input_file output_file) = None ->
  decode_base64_file env input_file output_file st
  = (inr tt, completed env input_file out decoded st).
Proof.
  intros Hr Hd Ho Hw Hp. unfold decode_content in Hd.
  unfold confirmation in Hp.
  run_through. now rewrite Hr, Hd, Ho, Hw, Hp.
Qed.

(** Every run takes one of the six ways. *)
Lemma run_cases :
  (exists e, run_fails env input_file output_file e /\
     exists st', decode_base64_file env input_file output_file st
                 = (inl (SystemExit 1), reported e st') /\
                 stdout st' = stdout st /\ stderr st' = stderr st /\
                 forall f, f <> locate env out ->
                           disk st' !! f = disk st !! f)
  \/ (exists text decoded,
        read_text env input_file = inr text /\
        decode_content text = inr decoded /\
        open_wb env out = None /\
        write_fault env out decoded = None /\
        print_fault env (confirmation input_file output_file) = None /\
        decode_base64_file env input_file output_file st
        = (inr tt, completed env input_file out decoded st)).
Proof.
  destruct (read_text env input_file) as [e|text] eqn:Hr.
  { left. exists e. split; [now apply input_access_error|].
    exists st. now rewrite (run_read_fails e Hr). }
  destruct (decode_content text) as [e|decoded] eqn:Hd.
  { left. exists e. split; [now apply decode_error with text|].
    exists st. now rewrite (run_decode_fails text e Hr Hd). }
  destruct (open_wb env out) as [e|] eqn:Ho.
  { left. exists e. split; [now apply output_access_error with text decoded|].
    exists st. now rewrite (run_open_fails text decoded e Hr Hd Ho). }
  destruct (write_fault env out decoded) as [[n e]|] eqn:Hw.
  { left. exists e.
    split; [now apply output_write_error with text decoded n|].
    eexists. rewrite (run_write_fails text decoded n e Hr Hd Ho Hw).
    repeat split; cbn.
    intros f Hf. now rewrite lookup_insert_ne. }
  destruct (print_fault env (confirmation input_file output_file))
    as [e|] eqn:Hp.
  { left. exists e.
    split; [now apply confirmation_error with text decoded|].
    eexists. rewrite (run_print_fails text decoded e Hr Hd Ho Hw Hp).
    repeat split; cbn.
    intros f Hf. now rewrite lookup_insert_ne. }
  right. exists text, decoded. repeat split; try assumption.
  now apply (run_succeeds text decoded).
Qed.

End Runs.

Lemma main_exit env args st sg st' :
  decode_base64_file env (input args) (output args) st
  = (inl (SystemExit sg), st') ->
  main env args st = (sg, st').
Proof. intros H. unfold main. now rewrite H. Qed.

Lemma main_return env args st st' :
  decode_base64_file env (input args) (output args) st = (inr tt, st') ->
  main env args st = at_exit env st'.
Proof. intros H. unfold main. now rewrite H. Qed.

Lemma at_exit_flushed env st :
  exit_flush_fault env = None -> at_exit env st = (0%Z, st).
Proof. intros H. unfold at_exit. now rewrite H. Qed.

Lemma at_exit_keeps env st :
  disk (snd (at_exit env st)) = disk st /\
  stdout (snd (at_exit env st)) = stdout st.
Proof. unfold at_exit. now destruct (exit_flush_fault env). Qed.

(** Once the write has completed, the output file holds the decoded bytes,
    whatever happens to the confirmation. *)
Lemma main_disk_written env args st text decoded :
  read_text env (input args) = inr text ->
  decode_content text = inr decoded ->
  open_wb env (output_path (input args) (output args)) = None ->
  write_fault env (output_path (input args) (output args)) decoded = None ->
  disk (snd (main env args st))
  = <[locate env (output_path (input args) (output args)) := decoded]>
      (disk st).
Proof.
  intros Hr Hd Ho Hw.
  destruct (print_fault env (confirmation (input args) (output args)))
    as [e|] eqn:Hp.
  - now rewrite (main_exit _ _ _ _ _
                   (run_print_fails env _ _ st text decoded e Hr Hd Ho Hw Hp)).
  - rewrite (main_return _ _ _ _
               (run_succeeds env _ _ st text decoded Hr Hd Ho Hw Hp)).
    now rewrite (proj1 (at_exit_keeps env _)).
Qed.

(** ** Characters inside and outside the alphabet *)

Ltac split_comparisons :=
  repeat match goal with
  | H : context [(?a <=? ?b)%N] |- _ =>
      destruct (N.leb_spec a b); try (exfalso; lia)
  | H : context [(?a =? ?b)%N] |- _ =>
      destruct (N.eqb_spec a b); try (exfalso; lia)
  | H : context [(?a <? ?b)%N] |- _ =>
      destruct (N.ltb_spec a b); try (exfalso; lia)
  | |- context [(?a <=? ?b)%N] =>
      destruct (N.leb_spec a b); try (exfalso; lia)
  | |- context [(?a =? ?b)%N] =>
      destruct (N.eqb_spec a b); try (exfalso; lia)
  | |- context [(?a <? ?b)%N] =>
      destruct (N.ltb_spec a b); try (exfalso; lia)
  end;
  cbn in *; try congruence; try (exfalso; lia).

Lemma alphabet_is_data (ch : N) :
  base64_alphabet ch = true ->
  (ch =? BASE64_PAD) = false /\ (64 <=? table_a2b_base64 ch) = false.
Proof.
  unfold base64_alphabet, table_a2b_base64, BASE64_PAD. intros H.
  split; split_comparisons.
Qed.

Lemma alphabet_is_ascii (ch : N) :
  base64_alphabet ch = true -> is_ascii ch = true.
Proof.
  unfold base64_alphabet, is_ascii. intros H.
  split_comparisons.
Qed.

Lemma outside_is_skipped (ch : N) :
  base64_char ch = false ->
  (ch =? BASE64_PAD) = false /\ (64 <=? table_a2b_base64 ch) = true.
Proof.
  unfold base64_char, base64_alphabet, table_a2b_base64, BASE64_PAD. intros H.
  split; split_comparisons.
Qed.

(** Dropping the characters the decoder skips does not change what it
    returns. *)
Lemma a2b_loop_filter (s : list N) :
  forall quad_pos leftchar pads bin,
    a2b_loop (List.filter base64_char s) quad_pos leftchar pads bin
    = a2b_loop s quad_pos leftchar pads bin.
Proof.
  induction s as [|ch s IH]; intros quad_pos leftchar pads bin; [easy|].
  cbn [List.filter]. destruct (base64_char ch) eqn:Hch.
  - cbn [a2b_loop]. now rewrite !IH.
  - destruct (outside_is_skipped ch Hch) as [Hp Ht].
    now rewrite a2b_loop_skip.
Qed.

Lemma forallb_filter {A} (f g : A -> bool) (l : list A) :
  forallb f l = true -> forallb f (List.filter g l) = true.
Proof.
  rewrite !forallb_forall. intros H x [Hx _]%filter_In. auto.
Qed.

Lemma b64decode_filter (s : list N) :
  forallb is_ascii s = true ->
  b64decode (List.filter base64_char s) = b64decode s.
Proof.
  intros Hs. unfold b64decode.
  rewrite Hs, forallb_filter by assumption.
  apply a2b_loop_filter.
Qed.

Lemma b64decode_non_ascii (s : list N) :
  existsb (fun ch => negb (is_ascii ch)) s = true ->
  b64decode s
  = inl (Exception ValueError
           (lit "string argument should contain only ASCII characters")).
Proof.
  intros Hs. unfold b64decode.
  destruct (forallb is_ascii s) eqn:Ha; [|reflexivity].
  apply existsb_exists in Hs as (ch & Hin & Hch).
  rewrite forallb_forall in Ha. rewrite (Ha ch Hin) in Hch. discriminate.
Qed.

(** ** Strings made of alphabet characters only *)

Lemma a2b_finish_open (quad_pos : N) (bin : list byte) :
  quad_pos <> 0 -> exists e, a2b_finish quad_pos bin = inl e.
Proof.
  intros Hq. unfold a2b_finish.
  destruct (N.eqb_spec quad_pos 0); [contradiction|].
  destruct (quad_pos =? 1); eauto.
Qed.

Lemma a2b_loop_alphabet (s : list N) :
  forallb base64_alphabet s = true ->
  forall quad_pos leftchar pads bin,
    quad_pos < 4 ->
    exists bin',
      a2b_loop s quad_pos leftchar pads bin
      = a2b_finish ((quad_pos + N.of_nat (length s)) mod 4) bin'.
Proof.
  induction s as [|ch s IH]; intros Hs quad_pos leftchar pads bin Hq.
  - exists bin. cbn [a2b_loop length]. f_equal.
    rewrite N.add_0_r. symmetry. now apply N.mod_small.
  - cbn [forallb] in Hs. apply andb_true_iff in Hs as [Hch Hs].
    destruct (alphabet_is_data ch Hch) as [Hp Ht].
    rewrite a2b_loop_data by assumption. cbv zeta.
    assert (Hlen : forall q', q' < 4 -> (quad_pos + 1) mod 4 = q' ->
              (quad_pos + N.of_nat (length (ch :: s))) mod 4
              = (q' + N.of_nat (length s)) mod 4).
    { intros q' Hq' <-. cbn [length].
      rewrite Nat2N.inj_succ, <- N.add_1_l, N.add_assoc.
      now rewrite N.Div0.add_mod_idemp_l. }
    assert (quad_pos = 0 \/ quad_pos = 1 \/ quad_pos = 2 \/ quad_pos = 3)
      as [-> | [-> | [-> | ->]]] by lia; cbn [N.eqb Pos.eqb].
    + rewrite (Hlen 1) by easy. now apply IH.
    + rewrite (Hlen 2) by easy. now apply IH.
    + rewrite (Hlen 3) by easy. now apply IH.
    + rewrite (Hlen 0) by easy. now apply IH.
Qed.

Lemma b64decode_open_quad (s : list N) :
  forallb base64_alphabet s = true ->
  (length s mod 4 <> 0)%nat ->
  exists e, b64decode s = inl e.
Proof.
  intros Hs Hlen. unfold b64decode, a2b_base64.
  rewrite (forallb_impl base64_alphabet is_ascii)
    by auto using alphabet_is_ascii.
  destruct (a2b_loop_alphabet s Hs 0 0 0 []) as [bin' ->]; [lia|].
  apply a2b_finish_open. rewrite N.add_0_l.
  change 4 with (N.of_nat 4). rewrite <- Nat2N.inj_mod. lia.
Qed.

(** * The decoder utility *)

(** The scenario of the specification: a file holding
    [SGVsbG8sIFdvcmxkIQ==] decodes to the 13 bytes of [Hello, World!]. *)
Example hello_world_scenario :
  b64encode hello_world = lit "SGVsbG8sIFdvcmxkIQ==" /\
  main (sample_env (lit "SGVsbG8sIFdvcmxkIQ==")) plain_call fresh
  = (0%Z, completed (sample_env (lit "SGVsbG8sIFdvcmxkIQ=="))
            (lit "in.b64") (lit "in.b64.decoded") hello_world fresh).
Proof. split; reflexivity. Qed.

(** C1 (round trip).  For every byte string [B], the decoder run on a file
    whose content is the standard base64 encoding of [B] decodes exactly
    [B]; when the output file can be written, [B] is what the run writes to
    it; when the confirmation can be printed as well, the run succeeds. *)
Theorem roundtrip_of_standard_encoding env args st (B : list byte) :
  read_text env (input args) = inr (b64encode B) ->
  open_wb env (output_path (input args) (output args)) = None ->
  write_fault env (output_path (input args) (output args)) B = None ->
  decode_content (b64encode B) = inr B /\
  disk (snd (main env args st))
  = <[locate env (output_path (input args) (output args)) := B]> (disk st) /\
  (print_fault env (confirmation (input args) (output args)) = None ->
   exit_flush_fault env = None ->
   main env args st
   = (0%Z, completed env (input args)
             (output_path (input args) (output args)) B st)).
Proof.
  intros Hr Ho Hw. split; [apply decode_content_b64encode|]. split.
  - apply (main_disk_written env args st (b64encode B) B);
      auto using decode_content_b64encode.
  - intros Hp Hx.
    rewrite (main_return env args st _
               (run_succeeds env _ _ st (b64encode B) B Hr
                  (decode_content_b64encode B) Ho Hw Hp)).
    now apply at_exit_flushed.
Qed.

Lemma roundtrip_of_standard_encoding_witness :
  read_text (sample_env (b64encode hello_world)) (input plain_call)
  = inr (b64encode hello_world) /\
  open_wb (sample_env (b64encode hello_world))
    (output_path (input plain_call) (output plain_call)) = None /\
  write_fault (sample_env (b64encode hello_world))
    (output_path (input plain_call) (output plain_call)) hello_world = None /\
  print_fault (sample_env (b64encode hello_world))
    (confirmation (input plain_call) (output plain_call)) = None /\
  exit_flush_fault (sample_env (b64encode hello_world)) = None /\
  decode_content (b64encode hello_world) = inr hello_world /\
  disk (snd (main (sample_env (b64encode hello_world)) plain_call fresh))
  = <[locate (sample_env (b64encode hello_world))
        (output_path (input plain_call) (output plain_call))
      := hello_world]> (disk fresh) /\
  main (sample_env (b64encode hello_world)) plain_call fresh
  = (0%Z, completed (sample_env (b64encode hello_world)) (input plain_call)
            (output_path (input plain_call) (output plain_call))
            hello_world fresh).
Proof.
  destruct (roundtrip_of_standard_encoding
              (sample_env (b64encode hello_world)) plain_call fresh
              hello_world eq_refl eq_refl eq_refl) as (Hd & Hw & Hm).
  split; [reflexivity|]. split; [reflexivity|]. split; [reflexivity|].
  split; [reflexivity|]. split; [reflexivity|].
  split; [exact Hd|]. split; [exact Hw|].
  exact (Hm eq_refl eq_refl).
Defined.

(** C5 (default output naming).  For every input path [P], a run without
    an output argument whose read, decode and write steps succeed writes
    the decoded bytes to the file that [P + ".decoded"] names, and to no
    other file. *)
Theorem default_output_naming env (P : list N) st text decoded :
  read_text env P = inr text ->
  decode_content text = inr decoded ->
  open_wb env (P ++ lit ".decoded") = None ->
  write_fault env (P ++ lit ".decoded") decoded = None ->
  disk (snd (main env {| input := P; output := None |} st))
  = <[locate env (P ++ lit ".decoded") := decoded]> (disk st) /\
  disk (snd (main env {| input := P; output := None |} st))
    !! locate env (P ++ lit ".decoded") = Some decoded /\
  forall f, f <> locate env (P ++ lit ".decoded") ->
    disk (snd (main env {| input := P; output := None |} st)) !! f
    = disk st !! f.
Proof.
  intros Hr Hd Ho Hw.
  rewrite (main_disk_written env {| input := P; output := None |} st
             text decoded Hr Hd Ho Hw).
  cbn [input output output_path]. split; [reflexivity|]. split.
  - apply lookup_insert_eq.
  - intros f Hf. now apply lookup_insert_ne.
Qed.

Lemma default_output_naming_witness :
  read_text (sample_env (lit "QUJD")) (lit "in.b64") = inr (lit "QUJD") /\
  decode_content (lit "QUJD") = inr abc /\
  open_wb (sample_env (lit "QUJD")) (lit "in.b64" ++ lit ".decoded") = None /\
  write_fault (sample_env (lit "QUJD")) (lit "in.b64" ++ lit ".decoded") abc
  = None /\
  (disk (snd (main (sample_env (lit "QUJD"))
                {| input := lit "in.b64"; output := None |} fresh))
   = <[locate (sample_env (lit "QUJD")) (lit "in.b64" ++ lit ".decoded")
       := abc]> (disk fresh) /\
   disk (snd (main (sample_env (lit "QUJD"))
                {| input := lit "in.b64"; output := None |} fresh))
     !! locate (sample_env (lit "QUJD")) (lit "in.b64" ++ lit ".decoded")
   = Some abc /\
   forall f,
     f <> locate (sample_env (lit "QUJD")) (lit "in.b64" ++ lit ".decoded") ->
     disk (snd (main (sample_env (lit "QUJD"))
                  {| input := lit "in.b64"; output := None |} fresh)) !! f
     = disk fresh !! f).
Proof.
  split; [reflexivity|]. split; [reflexivity|]. split; [reflexivity|].
  split; [reflexivity|].
  apply (default_output_naming (sample_env (lit "QUJD")) (lit "in.b64") fresh
           (lit "QUJD") abc); reflexivity.
Defined.

(** C6, as the specification states it, fails for the empty output path:
    with [-o ''] nothing is written to the file the path [''] would name,
    and the decoded bytes go to [in.b64.decoded]. *)
Lemma empty_output_path_counterexample :
  main (sample_env (lit "QUJD")) (call_with_output []) fresh
  = (0%Z, completed (sample_env (lit "QUJD")) (lit "in.b64")
            (lit "in.b64.decoded") abc fresh) /\
  disk (snd (main (sample_env (lit "QUJD")) (call_with_output []) fresh))
    !! locate (sample_env (lit "QUJD")) [] = None /\
  disk (snd (main (sample_env (lit "QUJD")) (call_with_output []) fresh))
    !! locate (sample_env (lit "QUJD")) (lit "in.b64.decoded") = Some abc.
Proof. repeat split; reflexivity. Qed.

(** C6 (explicit output path), amended.  For every input path [P] and
    every supplied non-empty output path [Q], a run whose read, decode and
    write steps succeed writes the decoded bytes to the file that [Q]
    names and to no other file, whatever [P] is. *)
Theorem explicit_output_path env (P Q : list N) st text decoded :
  Q <> [] ->
  read_text env P = inr text ->
  decode_content text = inr decoded ->
  open_wb env Q = None ->
  write_fault env Q decoded = None ->
  disk (snd (main env {| input := P; output := Some Q |} st))
  = <[locate env Q := decoded]> (disk st) /\
  disk (snd (main env {| input := P; output := Some Q |} st)) !! locate env Q
  = Some decoded /\
  forall f, f <> locate env Q ->
    disk (snd (main env {| input := P; output := Some Q |} st)) !! f
    = disk st !! f.
Proof.
  intros HQ Hr Hd Ho Hw.
  assert (Hout : output_path P (Some Q) = Q) by now destruct Q.
  rewrite (main_disk_written env {| input := P; output := Some Q |} st
             text decoded Hr Hd); cbn [input output]; rewrite Hout;
    [|assumption..].
  split; [reflexivity|]. split.
  - apply lookup_insert_eq.
  - intros f Hf. now apply lookup_insert_ne.
Qed.

Lemma explicit_output_path_witness :
  lit "./in.b64" <> [] /\
  read_text (sample_env (lit "QUJD")) (lit "in.b64") = inr (lit "QUJD") /\
  decode_content (lit "QUJD") = inr abc /\
  open_wb (sample_env (lit "QUJD")) (lit "./in.b64") = None /\
  write_fault (sample_env (lit "QUJD")) (lit "./in.b64") abc = None /\
  (disk (snd (main (sample_env (lit "QUJD"))
                {| input := lit "in.b64"; output := Some (lit "./in.b64") |}
                fresh))
   = <[locate (sample_env (lit "QUJD")) (lit "./in.b64") := abc]>
       (disk fresh) /\
   disk (snd (main (sample_env (lit "QUJD"))
                {| input := lit "in.b64"; output := Some (lit "./in.b64") |}
                fresh)) !! locate (sample_env (lit "QUJD")) (lit "./in.b64")
   = Some abc /\
   forall f, f <> locate (sample_env (lit "QUJD")) (lit "./in.b64") ->
     disk (snd (main (sample_env (lit "QUJD"))
                  {| input := lit "in.b64";
                     output := Some (lit "./in.b64") |} fresh)) !! f
     = disk fresh !! f).
Proof.
  split; [discriminate|].
  split; [reflexivity|]. split; [reflexivity|]. split; [reflexivity|].
  split; [reflexivity|].
  apply (explicit_output_path (sample_env (lit "QUJD")) (lit "in.b64")
           (lit "./in.b64") fresh (lit "QUJD") abc);
    [discriminate | reflexivity ..].
Defined.

(** With [-o ./in.b64] the output path names the input file: the run
    overwrites it, as seen through the name [in.b64]. *)
Example output_may_name_the_input_file :
  disk (snd (main (sample_env (lit "QUJD"))
               (call_with_output (lit "./in.b64")) fresh))
    !! locate (sample_env (lit "QUJD")) (lit "in.b64") = Some abc.
Proof. reflexivity. Qed.

(** C8, as the specification states it, fails: with [-o] naming a path that
    holds a lone surrogate (a file name whose bytes are not UTF-8) the
    input is read, the content decodes and the output is written, but the
    [print] of line 21 raises inside the [try]; the run exits with status
    1, an [Error:] line on standard error and nothing on standard
    output. *)
Lemma unprintable_confirmation_counterexample :
  read_text (sample_env (lit "QUJD"))
    (input (call_with_output (lit "out" ++ [0xDCFF]))) = inr (lit "QUJD") /\
  decode_content (lit "QUJD") = inr abc /\
  open_wb (sample_env (lit "QUJD")) (lit "out" ++ [0xDCFF]) = None /\
  write_fault (sample_env (lit "QUJD")) (lit "out" ++ [0xDCFF]) abc = None /\
  disk (snd (main (sample_env (lit "QUJD"))
               (call_with_output (lit "out" ++ [0xDCFF])) fresh))
    !! locate (sample_env (lit "QUJD")) (lit "out" ++ [0xDCFF]) = Some abc /\
  fst (main (sample_env (lit "QUJD"))
         (call_with_output (lit "out" ++ [0xDCFF])) fresh) = 1%Z /\
  stdout (snd (main (sample_env (lit "QUJD"))
                 (call_with_output (lit "out" ++ [0xDCFF])) fresh)) = [] /\
  stderr (snd (main (sample_env (lit "QUJD"))
                 (call_with_output (lit "out" ++ [0xDCFF])) fresh))
  = lit "Error: 'utf-8' codec can't encode character '\udcff' in position 21"
    ++ lit ": surrogates not allowed" ++ [10].
Proof. repeat split; reflexivity. Qed.

(** C8 (success report), amended.  On every run in which the input is
    read, the content decodes, the output is written and the confirmation
    is accepted by standard output -- the [print] of line 21 does not
    raise and the flush at exit does not fail -- the process exits with
    status 0, standard output receives the one line
    [Decoded <input> to <output>] naming the input path and the effective
    output path, and standard error receives nothing. *)
Theorem success_report env args st text decoded :
  read_text env (input args) = inr text ->
  decode_content text = inr decoded ->
  open_wb env (output_path (input args) (output args)) = None ->
  write_fault env (output_path (input args) (output args)) decoded = None ->
  print_fault env (confirmation (input args) (output args)) = None ->
  exit_flush_fault env = None ->
  exists st',
    main env args st = (0%Z, st') /\
    stdout st'
    = stdout st
      ++ (lit "Decoded " ++ input args ++ lit " to "
          ++ output_path (input args) (output args)) ++ [10] /\
    stderr st' = stderr st.
Proof.
  intros Hr Hd Ho Hw Hp Hx.
  exists (completed env (input args) (output_path (input args) (output args))
            decoded st).
  split; [|split; reflexivity].
  rewrite (main_return env args st _
             (run_succeeds env _ _ st text decoded Hr Hd Ho Hw Hp)).
  now apply at_exit_flushed.
Qed.

Lemma success_report_witness :
  read_text (sample_env (lit "QUJD")) (input plain_call) = inr (lit "QUJD") /\
  decode_content (lit "QUJD") = inr abc /\
  open_wb (sample_env (lit "QUJD"))
    (output_path (input plain_call) (output plain_call)) = None /\
  write_fault (sample_env (lit "QUJD"))
    (output_path (input plain_call) (output plain_call)) abc = None /\
  print_fault (sample_env (lit "QUJD"))
    (confirmation (input plain_call) (output plain_call)) = None /\
  exit_flush_fault (sample_env (lit "QUJD")) = None /\
  exists st',
    main (sample_env (lit "QUJD")) plain_call fresh = (0%Z, st') /\
    stdout st'
    = stdout fresh
      ++ (lit "Decoded " ++ input plain_call ++ lit " to "
          ++ output_path (input plain_call) (output plain_call)) ++ [10] /\
    stderr st' = stderr fresh.
Proof.
  split; [reflexivity|]. split; [reflexivity|]. split; [reflexivity|].
  split; [reflexivity|]. split; [reflexivity|]. split; [reflexivity|].
  apply (success_report (sample_env (lit "QUJD")) plain_call fresh
           (lit "QUJD") abc); reflexivity.
Defined.

(** When the flush of standard output fails at exit (the stream is a full
    device, say), the function has returned normally, the exit status is
    120 and standard error holds the report of the interpreter. *)
Example flush_failure_at_exit :
  main {| read_text := read_text (sample_env (lit "QUJD"));
          open_wb := open_wb (sample_env (lit "QUJD"));
          locate := locate (sample_env (lit "QUJD"));
          write_fault := write_fault (sample_env (lit "QUJD"));
          print_fault := print_fault (sample_env (lit "QUJD"));
          exit_flush_fault :=
            Some (lit "OSError: [Errno 28] No space left on device" ++ [10])
       |} plain_call fresh
  = (120%Z,
     {| disk := {[ locate (sample_env (lit "QUJD")) (lit "in.b64.decoded")
                   := abc ]};
        stdout := lit "Decoded in.b64 to in.b64.decoded" ++ [10];
        stderr := lit "OSError: [Errno 28] No space left on device" ++ [10]
     |}).
Proof. reflexivity. Qed.

(** C3, as the specification states it, fails: a file holding only
    whitespace strips to the empty string, and the run still decodes it (to
    no bytes), creates the output file and reports success. *)
Lemma empty_content_counterexample :
  strip [32; 10] = [] /\
  main (sample_env [32; 10]) plain_call fresh
  = (0%Z, completed (sample_env [32; 10]) (lit "in.b64")
            (lit "in.b64.decoded") [] fresh) /\
  disk (snd (main (sample_env [32; 10]) plain_call fresh))
    !! locate (sample_env [32; 10]) (lit "in.b64.decoded") = Some [].
Proof. repeat split; reflexivity. Qed.

(** C3 (empty content), amended.  There is no check that the content
    buffer is non-empty: for an input file whose content strips to the
    empty string, the decode step yields the empty byte string and, the
    output being writable, the run writes an empty output file; when the
    confirmation is accepted by standard output as well, the run prints it
    and exits with status 0. *)
Theorem empty_content_is_decoded env args st text :
  read_text env (input args) = inr text ->
  strip text = [] ->
  open_wb env (output_path (input args) (output args)) = None ->
  write_fault env (output_path (input args) (output args)) [] = None ->
  decode_content text = inr [] /\
  disk (snd (main env args st))
  = <[locate env (output_path (input args) (output args)) := []]> (disk st) /\
  (print_fault env (confirmation (input args) (output args)) = None ->
   exit_flush_fault env = None ->
   main env args st
   = (0%Z, completed env (input args)
             (output_path (input args) (output args)) [] st)).
Proof.
  intros Hr Hs Ho Hw.
  assert (Hd : decode_content text = inr []).
  { unfold decode_content. now rewrite Hs. }
  split; [exact Hd|]. split.
  - now apply (main_disk_written env args st text []).
  - intros Hp Hx.
    rewrite (main_return env args st _
               (run_succeeds env _ _ st text [] Hr Hd Ho Hw Hp)).
    now apply at_exit_flushed.
Qed.

Lemma empty_content_is_decoded_witness :
  read_text (sample_env [32; 10]) (input plain_call) = inr [32; 10] /\
  strip [32; 10] = [] /\
  open_wb (sample_env [32; 10])
    (output_path (input plain_call) (output plain_call)) = None /\
  write_fault (sample_env [32; 10])
    (output_path (input plain_call) (output plain_call)) [] = None /\
  print_fault (sample_env [32; 10])
    (confirmation (input plain_call) (output plain_call)) = None /\
  exit_flush_fault (sample_env [32; 10]) = None /\
  decode_content [32; 10] = inr [] /\
  disk (snd (main (sample_env [32; 10]) plain_call fresh))
  = <[locate (sample_env [32; 10])
        (output_path (input plain_call) (output plain_call)) := []]>
      (disk fresh) /\
  main (sample_env [32; 10]) plain_call fresh
  = (0%Z, completed (sample_env [32; 10]) (input plain_call)
            (output_path (input plain_call) (output plain_call)) [] fresh).
Proof.
  destruct (empty_content_is_decoded (sample_env [32; 10]) plain_call fresh
              [32; 10] eq_refl eq_refl eq_refl eq_refl) as (Hd & Hw & Hm).
  split; [reflexivity|]. split; [reflexivity|]. split; [reflexivity|].
  split; [reflexivity|]. split; [reflexivity|]. split; [reflexivity|].
  split; [exact Hd|]. split; [exact Hw|].
  exact (Hm eq_refl eq_refl).
Defined.

(** C2, as the specification states it, fails: [QU!JD] contains [!], which
    is outside the alphabet, and the run decodes it to [ABC] and
    succeeds. *)
Lemma invalid_character_counterexample :
  existsb (fun ch => negb (base64_char ch)) (strip (lit "QU!JD")) = true /\
  decode_content (lit "QU!JD") = inr abc /\
  main (sample_env (lit "QU!JD")) plain_call fresh
  = (0%Z, completed (sample_env (lit "QU!JD")) (lit "in.b64")
            (lit "in.b64.decoded") abc fresh).
Proof. repeat split; reflexivity. Qed.

(** C2 (characters outside the alphabet), amended.  For every input whose
    stripped content contains a non-ASCII character the decode step fails:
    no bytes are decoded, the error is reported, the exit status is 1 and
    nothing is written.  An ASCII character outside the alphabet does not
    make the decode step fail: the decoder skips it, so ASCII content
    decodes as it does with those characters removed. *)
Theorem characters_outside_alphabet env args st text :
  read_text env (input args) = inr text ->
  (existsb (fun ch => negb (is_ascii ch)) (strip text) = true ->
   exists e,
     decode_content text = inl e /\
     main env args st = (1%Z, reported e st)) /\
  (forallb is_ascii (strip text) = true ->
   decode_content text = b64decode (List.filter base64_char (strip text))).
Proof.
  intros Hr. split.
  - intros Hx. eexists. split.
    + unfold decode_content. now apply b64decode_non_ascii.
    + apply main_exit. apply (run_decode_fails env _ _ st text _ Hr).
      unfold decode_content. now apply b64decode_non_ascii.
  - intros Ha. unfold decode_content. symmetry. now apply b64decode_filter.
Qed.

Lemma characters_outside_alphabet_witness :
  (read_text (sample_env [81; 233]) (input plain_call) = inr [81; 233] /\
   existsb (fun ch => negb (is_ascii ch)) (strip [81; 233]) = true /\
   exists e,
     decode_content [81; 233] = inl e /\
     main (sample_env [81; 233]) plain_call fresh = (1%Z, reported e fresh)) /\
  (read_text (sample_env (lit "QU!JD")) (input plain_call)
   = inr (lit "QU!JD") /\
   forallb is_ascii (strip (lit "QU!JD")) = true /\
   decode_content (lit "QU!JD")
   = b64decode (List.filter base64_char (strip (lit "QU!JD")))).
Proof.
  split.
  - split; [reflexivity|]. split; [reflexivity|].
    apply (proj1 (characters_outside_alphabet (sample_env [81; 233])
                    plain_call fresh [81; 233] eq_refl)).
    reflexivity.
  - split; [reflexivity|]. split; [reflexivity|].
    apply (proj2 (characters_outside_alphabet (sample_env (lit "QU!JD"))
                    plain_call fresh (lit "QU!JD") eq_refl)).
    reflexivity.
Defined.

(** C4, as the specification states it, fails: the stripped content
    [QUJD!] has length 5, not a multiple of 4, and the run decodes it to
    [ABC], exits with status 0 and writes the output file. *)
Lemma length_not_multiple_of_4_counterexample :
  (length (strip (lit "QUJD!")) mod 4 <> 0)%nat /\
  main (sample_env (lit "QUJD!")) plain_call fresh
  = (0%Z, completed (sample_env (lit "QUJD!")) (lit "in.b64")
            (lit "in.b64.decoded") abc fresh) /\
  disk (snd (main (sample_env (lit "QUJD!")) plain_call fresh))
    !! locate (sample_env (lit "QUJD!")) (lit "in.b64.decoded") = Some abc.
Proof. repeat split; try reflexivity. cbn. discriminate. Qed.

(** C4 (malformed input), amended.  For every input whose stripped content
    consists of base64 alphabet characters only (A-Z, a-z, 0-9, + and /)
    and has a length that is not a multiple of 4 (for example [QQ]), the
    decode step fails, the run prints an error message on standard error
    and exits with status 1; the write is not reached: no file changes and
    nothing is printed on standard output. *)
Theorem malformed_length_is_rejected env args st text :
  read_text env (input args) = inr text ->
  forallb base64_alphabet (strip text) = true ->
  (length (strip text) mod 4 <> 0)%nat ->
  exists e,
    decode_content text = inl e /\
    main env args st
    = (1%Z, {| disk := disk st; stdout := stdout st;
               stderr := stderr st ++ (lit "Error: " ++ exn_msg e) ++ [10] |}).
Proof.
  intros Hr Ha Hlen.
  destruct (b64decode_open_quad (strip text) Ha Hlen) as [e He].
  exists e. split; [exact He|].
  apply main_exit. now apply (run_decode_fails env _ _ st text e).
Qed.

Lemma malformed_length_is_rejected_witness :
  read_text (sample_env (lit "QQ")) (input plain_call) = inr (lit "QQ") /\
  forallb base64_alphabet (strip (lit "QQ")) = true /\
  (length (strip (lit "QQ")) mod 4 <> 0)%nat /\
  exists e,
    decode_content (lit "QQ") = inl e /\
    main (sample_env (lit "QQ")) plain_call fresh
    = (1%Z, {| disk := disk fresh; stdout := stdout fresh;
               stderr := stderr fresh
                         ++ (lit "Error: " ++ exn_msg e) ++ [10] |}).
Proof.
  split; [reflexivity|]. split; [reflexivity|].
  split; [cbn; discriminate|].
  apply (malformed_length_is_rejected (sample_env (lit "QQ")) plain_call
           fresh (lit "QQ")); [reflexivity | reflexivity | cbn; discriminate].
Defined.

(** What [QQ] gives: [Error: Incorrect padding]. *)
Example malformed_QQ :
  main (sample_env (lit "QQ")) plain_call fresh
  = (1%Z, {| disk := ∅; stdout := [];
             stderr := lit "Error: Incorrect padding" ++ [10] |}).
Proof. reflexivity. Qed.

(** C7 (whitespace tolerance).  For every content string [S] and all
    strings [w1], [w2] of whitespace (spaces, newlines or any other
    character [strip] removes), the content [w1 + S + w2] is decoded as [S]
    is: the same bytes or the same error, and the same run. *)
Theorem whitespace_tolerance (S w1 w2 : list N) env env' args st :
  forallb Py_UNICODE_ISSPACE w1 = true ->
  forallb Py_UNICODE_ISSPACE w2 = true ->
  read_text env (input args) = inr S ->
  read_text env' (input args) = inr (w1 ++ S ++ w2) ->
  open_wb env' = open_wb env ->
  locate env' = locate env ->
  write_fault env' = write_fault env ->
  print_fault env' = print_fault env ->
  exit_flush_fault env' = exit_flush_fault env ->
  decode_content (w1 ++ S ++ w2) = decode_content S /\
  main env' args st = main env args st.
Proof.
  intros H1 H2 Hr Hr' Ho Hl Hw Hp Hx.
  assert (Hd : decode_content (w1 ++ S ++ w2) = decode_content S).
  { unfold decode_content. now rewrite strip_padded. }
  split; [exact Hd|].
  unfold main, at_exit, decode_base64_file, try_except, mbind, M_bind,
    read_file, lift, write_file, print.
  rewrite Hr, Hr', Ho, Hl, Hw, Hp, Hx.
  unfold decode_content in Hd. now rewrite Hd.
Qed.

Lemma whitespace_tolerance_witness :
  forallb Py_UNICODE_ISSPACE [32; 10] = true /\
  forallb Py_UNICODE_ISSPACE [10; 32; 32] = true /\
  read_text (sample_env (lit "QUJD")) (input plain_call) = inr (lit "QUJD") /\
  read_text (sample_env ([32; 10] ++ lit "QUJD" ++ [10; 32; 32]))
    (input plain_call) = inr ([32; 10] ++ lit "QUJD" ++ [10; 32; 32]) /\
  open_wb (sample_env ([32; 10] ++ lit "QUJD" ++ [10; 32; 32]))
  = open_wb (sample_env (lit "QUJD")) /\
  locate (sample_env ([32; 10] ++ lit "QUJD" ++ [10; 32; 32]))
  = locate (sample_env (lit "QUJD")) /\
  write_fault (sample_env ([32; 10] ++ lit "QUJD" ++ [10; 32; 32]))
  = write_fault (sample_env (lit "QUJD")) /\
  print_fault (sample_env ([32; 10] ++ lit "QUJD" ++ [10; 32; 32]))
  = print_fault (sample_env (lit "QUJD")) /\
  exit_flush_fault (sample_env ([32; 10] ++ lit "QUJD" ++ [10; 32; 32]))
  = exit_flush_fault (sample_env (lit "QUJD")) /\
  (decode_content ([32; 10] ++ lit "QUJD" ++ [10; 32; 32])
   = decode_content (lit "QUJD") /\
   main (sample_env ([32; 10] ++ lit "QUJD" ++ [10; 32; 32])) plain_call fresh
   = main (sample_env (lit "QUJD")) plain_call fresh).
Proof.
  split; [reflexivity|]. split; [reflexivity|]. split; [reflexivity|].
  split; [reflexivity|]. split; [reflexivity|]. split; [reflexivity|].
  split; [reflexivity|]. split; [reflexivity|]. split; [reflexivity|].
  apply (whitespace_tolerance (lit "QUJD") [32; 10] [10; 32; 32]
           (sample_env (lit "QUJD"))
           (sample_env ([32; 10] ++ lit "QUJD" ++ [10; 32; 32]))
           plain_call fresh); reflexivity.
Defined.

(** C9 (error boundary).  Every failure of the read / decode / write
    sequence (input-access error, decode error, output-access error, fault
    while writing), and a failure of the confirmation that follows it, is
    caught inside the operation: standard error receives the one line
    [Error: <description>], standard output receives nothing, and the
    operation ends in [sys.exit(1)], so the process terminates with status
    1.  Whatever happens, no exception leaves the operation. *)
Theorem failure_is_reported env args st e :
  run_fails env (input args) (output args) e ->
  (exists st',
     decode_base64_file env (input args) (output args) st
     = (inl (SystemExit 1), st') /\
     main env args st = (1%Z, st') /\
     stdout st' = stdout st /\
     stderr st' = stderr st ++ (lit "Error: " ++ exn_msg e) ++ [10]) /\
  forall e',
    fst (decode_base64_file env (input args) (output args) st)
    <> inl (Raise e').
Proof.
  intros Hf. split.
  - assert (Hrun : exists st0,
              decode_base64_file env (input args) (output args) st
              = (inl (SystemExit 1), reported e st0) /\
              stdout st0 = stdout st /\ stderr st0 = stderr st).
    { destruct Hf as [e Hr | text e Hr Hd | text decoded e Hr Hd Ho
                     | text decoded n e Hr Hd Ho Hw
                     | text decoded e Hr Hd Ho Hw Hp].
      - exists st. now rewrite (run_read_fails env _ _ st e Hr).
      - exists st. now rewrite (run_decode_fails env _ _ st text e Hr Hd).
      - exists st.
        now rewrite (run_open_fails env _ _ st text decoded e Hr Hd Ho).
      - eexists.
        now rewrite (run_write_fails env _ _ st text decoded n e Hr Hd Ho Hw).
      - eexists.
        now rewrite (run_print_fails env _ _ st text decoded e
                       Hr Hd Ho Hw Hp). }
    destruct Hrun as (st0 & Hrun & Hout & Herr).
    exists (reported e st0). split; [exact Hrun|].
    split; [now apply main_exit|].
    cbn [reported stdout stderr]. now rewrite Hout, Herr.
  - intros e'.
    destruct (run_cases env (input args) (output args) st)
      as [(e0 & _ & st' & -> & _)
         | (text & decoded & _ & _ & _ & _ & _ & ->)];
      discriminate.
Qed.

Lemma failure_is_reported_witness :
  run_fails (sample_env (lit "QUJD")) (lit "missing") None
    (Exception OSError
       (lit "[Errno 2] No such file or directory: 'missing'")) /\
  ((exists st',
      decode_base64_file (sample_env (lit "QUJD")) (lit "missing") None fresh
      = (inl (SystemExit 1), st') /\
      main (sample_env (lit "QUJD"))
        {| input := lit "missing"; output := None |} fresh = (1%Z, st') /\
      stdout st' = stdout fresh /\
      stderr st'
      = stderr fresh
        ++ (lit "Error: "
            ++ lit "[Errno 2] No such file or directory: 'missing'") ++ [10]) /\
   forall e',
     fst (decode_base64_file (sample_env (lit "QUJD")) (lit "missing") None
            fresh) <> inl (Raise e')).
Proof.
  split.
  - apply input_access_error. reflexivity.
  - apply (failure_is_reported (sample_env (lit "QUJD"))
             {| input := lit "missing"; output := None |} fresh
             (Exception OSError
                (lit "[Errno 2] No such file or directory: 'missing'"))).
    apply input_access_error. reflexivity.
Defined.

(** C10 (no output before the write step).  If the run fails while reading
    the input file or while decoding its content, no file is created or
    modified.  Conversely, a run that changed the file system read and
    decoded its input and opened the output file; the output file then
    holds all the decoded bytes, unless the write step itself failed, in
    which case it holds the bytes written before the fault. *)
Theorem early_failure_writes_nothing env args st :
  (forall e,
     read_text env (input args) = inl e \/
     (exists text, read_text env (input args) = inr text /\
                   decode_content text = inl e) ->
     main env args st = (1%Z, reported e st) /\
     disk (snd (main env args st)) = disk st) /\
  (disk (snd (main env args st)) <> disk st ->
   exists text decoded,
     read_text env (input args) = inr text /\
     decode_content text = inr decoded /\
     open_wb env (output_path (input args) (output args)) = None /\
     ((exists n e,
         write_fault env (output_path (input args) (output args)) decoded
         = Some (n, e) /\
         disk (snd (main env args st))
         = <[locate env (output_path (input args) (output args))
             := take n decoded]> (disk st))
      \/
      (write_fault env (output_path (input args) (output args)) decoded
       = None /\
       disk (snd (main env args st))
       = <[locate env (output_path (input args) (output args))
           := decoded]> (disk st)))).
Proof.
  split.
  - intros e He.
    assert (Hm : main env args st = (1%Z, reported e st)).
    { apply main_exit. destruct He as [Hr | (text & Hr & Hd)].
      - now apply run_read_fails.
      - now apply (run_decode_fails env _ _ st text). }
    now rewrite Hm.
  - intros Hdisk.
    destruct (read_text env (input args)) as [e|text] eqn:Hr.
    { rewrite (main_exit _ _ _ _ _ (run_read_fails env _ _ st e Hr)) in Hdisk.
      now contradiction Hdisk. }
    destruct (decode_content text) as [e|decoded] eqn:Hd.
    { rewrite (main_exit _ _ _ _ _ (run_decode_fails env _ _ st text e Hr Hd))
        in Hdisk.
      now contradiction Hdisk. }
    destruct (open_wb env (output_path (input args) (output args)))
      as [e|] eqn:Ho.
    { rewrite (main_exit _ _ _ _ _
                 (run_open_fails env _ _ st text decoded e Hr Hd Ho)) in Hdisk.
      now contradiction Hdisk. }
    exists text, decoded. repeat split; try assumption.
    destruct (write_fault env (output_path (input args) (output args)) decoded)
      as [[n e]|] eqn:Hw.
    + left. exists n, e. split; [reflexivity|].
      now rewrite (main_exit _ _ _ _ _
                     (run_write_fails env _ _ st text decoded n e Hr Hd Ho Hw)).
    + right. split; [reflexivity|].
      now apply (main_disk_written env args st text decoded).
Qed.

Lemma early_failure_writes_nothing_witness :
  ((read_text (sample_env (lit "QQ")) (input plain_call)
    = inl (Exception binascii_Error (lit "Incorrect padding")) \/
    (exists text,
       read_text (sample_env (lit "QQ")) (input plain_call) = inr text /\
       decode_content text
       = inl (Exception binascii_Error (lit "Incorrect padding")))) /\
   main (sample_env (lit "QQ")) plain_call fresh
   = (1%Z, reported (Exception binascii_Error (lit "Incorrect padding"))
             fresh) /\
   disk (snd (main (sample_env (lit "QQ")) plain_call fresh)) = disk fresh) /\
  (disk (snd (main (sample_env (lit "QUJD"))
                (call_with_output (lit "/full/out")) fresh)) <> disk fresh /\
   exists text decoded,
     read_text (sample_env (lit "QUJD"))
       (input (call_with_output (lit "/full/out"))) = inr text /\
     decode_content text = inr decoded /\
     open_wb (sample_env (lit "QUJD"))
       (output_path (input (call_with_output (lit "/full/out")))
          (output (call_with_output (lit "/full/out")))) = None /\
     ((exists n e,
         write_fault (sample_env (lit "QUJD"))
           (output_path (input (call_with_output (lit "/full/out")))
              (output (call_with_output (lit "/full/out")))) decoded
         = Some (n, e) /\
         disk (snd (main (sample_env (lit "QUJD"))
                      (call_with_output (lit "/full/out")) fresh))
         = <[locate (sample_env (lit "QUJD"))
               (output_path (input (call_with_output (lit "/full/out")))
                  (output (call_with_output (lit "/full/out"))))
             := take n decoded]> (disk fresh))
      \/
      (write_fault (sample_env (lit "QUJD"))
         (output_path (input (call_with_output (lit "/full/out")))
            (output (call_with_output (lit "/full/out")))) decoded = None /\
       disk (snd (main (sample_env (lit "QUJD"))
                    (call_with_output (lit "/full/out")) fresh))
       = <[locate (sample_env (lit "QUJD"))
             (output_path (input (call_with_output (lit "/full/out")))
                (output (call_with_output (lit "/full/out"))))
           := decoded]> (disk fresh)))).
Proof.
  assert (Hearly :
    read_text (sample_env (lit "QQ")) (input plain_call)
    = inl (Exception binascii_Error (lit "Incorrect padding")) \/
    (exists text,
       read_text (sample_env (lit "QQ")) (input plain_call) = inr text /\
       decode_content text
       = inl (Exception binascii_Error (lit "Incorrect padding")))).
  { right. exists (lit "QQ"). split; reflexivity. }
  assert (Hchanged :
    disk (snd (main (sample_env (lit "QUJD"))
                 (call_with_output (lit "/full/out")) fresh)) <> disk fresh).
  { intros H.
    apply (f_equal (fun m : gmap N (list byte) =>
                      m !! locate (sample_env (lit "QUJD")) (lit "/full/out")))
      in H.
    vm_compute in H. discriminate H. }
  split.
  - split; [exact Hearly|].
    exact (proj1 (early_failure_writes_nothing (sample_env (lit "QQ"))
                    plain_call fresh) _ Hearly).
  - split; [exact Hchanged|].
    exact (proj2 (early_failure_writes_nothing (sample_env (lit "QUJD"))
                    (call_with_output (lit "/full/out")) fresh) Hchanged).
Defined.

(** A fault in the write step: two bytes of [ABC] reach [/full/out]. *)
Example write_fault_leaves_partial_output :
  main (sample_env (lit "QUJD")) (call_with_output (lit "/full/out")) fresh
  = (1%Z, {| disk := {[ locate (sample_env (lit "QUJD")) (lit "/full/out")
                        := [x41; x42] ]};
             stdout := [];
             stderr := lit "Error: [Errno 28] No space left on device"
                       ++ [10] |}).
Proof. reflexivity. Qed.

(** * Further properties of the run *)

(** ** Which files a run can change *)

Lemma output_path_nonempty (P : list N) (o : option (list N)) :
  output_path P o <> [].
Proof.
  assert (Hd : P ++ lit ".decoded" <> []).
  { intros H. apply app_eq_nil in H as [_ H]. vm_compute in H. discriminate H. }
  destruct o as [[|ch q]|]; cbn [output_path];
    [exact Hd | discriminate | exact Hd].
Qed.

(** X1 (frame).  Whatever the outcome of a run -- success or any failure --
    every file other than the one the effective output path names holds
    after the run what it held before. *)
Theorem run_changes_only_output_file env args st (f : N) :
  f <> locate env (output_path (input args) (output args)) ->
  disk (snd (main env args st)) !! f = disk st !! f.
Proof.
  intros Hf.
  destruct (run_cases env (input args) (output args) st)
    as [(e & _ & st' & Hrun & _ & _ & Hframe)
       | (text & decoded & _ & _ & _ & _ & _ & Hrun)].
  - rewrite (main_exit _ _ _ _ _ Hrun). cbn. now apply Hframe.
  - rewrite (main_return _ _ _ _ Hrun).
    rewrite (proj1 (at_exit_keeps env _)). cbn. now apply lookup_insert_ne.
Qed.

Lemma run_changes_only_output_file_witness :
  locate (sample_env (lit "QUJD")) (lit "other.bin")
  <> locate (sample_env (lit "QUJD"))
       (output_path (input (call_with_output (lit "/full/out")))
          (output (call_with_output (lit "/full/out")))) /\
  disk (snd (main (sample_env (lit "QUJD"))
               (call_with_output (lit "/full/out")) fresh))
    !! locate (sample_env (lit "QUJD")) (lit "other.bin")
  = disk fresh !! locate (sample_env (lit "QUJD")) (lit "other.bin").
Proof.
  split; [vm_compute; discriminate|].
  apply (run_changes_only_output_file (sample_env (lit "QUJD"))
           (call_with_output (lit "/full/out")) fresh).
  vm_compute; discriminate.
Defined.

(** X3 (the empty path is never opened).  The effective output path is
    never the empty string, whatever the arguments are, and no run opens
    the empty path for writing: the run is the same whatever the system
    would answer there. *)
Theorem empty_path_is_never_written env args st :
  output_path (input args) (output args) <> [] /\
  forall opened file fault,
    main (with_write_answers env [] opened file fault) args st
    = main env args st.
Proof.
  pose proof (output_path_nonempty (input args) (output args)) as Hne.
  split; [exact Hne|]. intros opened file fault.
  unfold main, at_exit, decode_base64_file, try_except, mbind, M_bind,
    read_file, lift, write_file, print, with_write_answers.
  cbn [read_text open_wb locate write_fault print_fault exit_flush_fault].
  destruct (decide (output_path (input args) (output args) = []));
    [contradiction | reflexivity].
Qed.

(** ** Exit status and messages *)


(** X5 (when a run succeeds).  The exit status is 0 exactly when every
    step succeeds: the input is read, its stripped content decodes, the
    output file opens, the write completes, the confirmation is printed
    and standard output is flushed at exit. *)
Theorem exit_status_zero_iff env args st :
  fst (main env args st) = 0%Z <->
  exists text decoded,
    read_text env (input args) = inr text /\
    decode_content text = inr decoded /\
    open_wb env (output_path (input args) (output args)) = None /\
    write_fault env (output_path (input args) (output args)) decoded = None /\
    print_fault env (confirmation (input args) (output args)) = None /\
    exit_flush_fault env = None.
Proof.
  split.
  - intros H0.
    destruct (run_cases env (input args) (output args) st)
      as [(e & _ & st' & Hrun & _)
         | (text & decoded & Hr & Hd & Ho & Hw & Hp & Hrun)].
    + rewrite (main_exit _ _ _ _ _ Hrun) in H0. discriminate H0.
    + rewrite (main_return _ _ _ _ Hrun) in H0. unfold at_exit in H0.
      exists text, decoded. repeat split; try assumption.
      now destruct (exit_flush_fault env).
  - intros (text & decoded & Hr & Hd & Ho & Hw & Hp & Hx).
    rewrite (main_return _ _ _ _
               (run_succeeds env _ _ st text decoded Hr Hd Ho Hw Hp)).
    now rewrite (at_exit_flushed env _ Hx).
Qed.

Lemma exit_status_zero_iff_witness :
  fst (main (sample_env (lit "QUJD")) plain_call fresh) = 0%Z /\
  exists text decoded,
    read_text (sample_env (lit "QUJD")) (input plain_call) = inr text /\
    decode_content text = inr decoded /\
    open_wb (sample_env (lit "QUJD"))
      (output_path (input plain_call) (output plain_call)) = None /\
    write_fault (sample_env (lit "QUJD"))
      (output_path (input plain_call) (output plain_call)) decoded = None /\
    print_fault (sample_env (lit "QUJD"))
      (confirmation (input plain_call) (output plain_call)) = None /\
    exit_flush_fault (sample_env (lit "QUJD")) = None.
Proof.
  split; [reflexivity|].
  apply (proj1 (exit_status_zero_iff (sample_env (lit "QUJD")) plain_call
                  fresh)).
  reflexivity.
Defined.

(** * Further properties of the decode step *)

(** ** Whitespace and other skipped characters *)

Lemma space_is_skipped (ch : N) :
  Py_UNICODE_ISSPACE ch = true -> base64_char ch = false.
Proof.
  unfold Py_UNICODE_ISSPACE, base64_char, base64_alphabet, BASE64_PAD.
  intros H. split_comparisons.
Qed.

Lemma filter_lstrip (s : list N) :
  List.filter base64_char (lstrip s) = List.filter base64_char s.
Proof.
  induction s as [|ch s IH]; [reflexivity|].
  cbn [lstrip]. destruct (Py_UNICODE_ISSPACE ch) eqn:Hch; [|reflexivity].
  cbn [List.filter]. now rewrite (space_is_skipped ch Hch).
Qed.

Lemma filter_rstrip (s : list N) :
  List.filter base64_char (rstrip s) = List.filter base64_char s.
Proof.
  unfold rstrip. rewrite filter_rev, filter_lstrip, <- filter_rev.
  now rewrite rev_involutive.
Qed.

Lemma filter_strip (s : list N) :
  List.filter base64_char (strip s) = List.filter base64_char s.
Proof. unfold strip. now rewrite filter_rstrip, filter_lstrip. Qed.

Lemma forallb_lstrip (f : N -> bool) (s : list N) :
  forallb f s = true -> forallb f (lstrip s) = true.
Proof.
  induction s as [|ch s IH]; [easy|].
  intros H. cbn [lstrip]. destruct (Py_UNICODE_ISSPACE ch); [|exact H].
  cbn [forallb] in H. apply andb_true_iff in H as [_ H]. auto.
Qed.

Lemma forallb_rstrip (f : N -> bool) (s : list N) :
  forallb f s = true -> forallb f (rstrip s) = true.
Proof.
  intros H. unfold rstrip. rewrite forallb_rev.
  apply forallb_lstrip. now rewrite forallb_rev.
Qed.

Lemma forallb_strip (f : N -> bool) (s : list N) :
  forallb f s = true -> forallb f (strip s) = true.
Proof. intros H. unfold strip. now apply forallb_rstrip, forallb_lstrip. Qed.

Lemma b64encode_ascii (B : list byte) : forallb is_ascii (b64encode B) = true.
Proof.
  apply (forallb_impl plain is_ascii); [|apply b64encode_plain].
  unfold plain. now intros x [? _]%andb_true_iff.
Qed.

Lemma b64decode_b64encode (B : list byte) : b64decode (b64encode B) = inr B.
Proof.
  unfold b64decode. rewrite b64encode_ascii. apply a2b_base64_b64encode.
Qed.

Lemma decode_content_of_ascii (text : list N) :
  forallb is_ascii text = true -> decode_content text = b64decode text.
Proof.
  intros Ha. unfold decode_content.
  rewrite <- (b64decode_filter (strip text)) by now apply forallb_strip.
  rewrite filter_strip. now apply b64decode_filter.
Qed.

(** X6 (the strip is redundant on ASCII text).  For content made of ASCII
    characters the decode step gives the same bytes, or the same error,
    with and without the [strip()] of line 11: the decoder itself skips
    whitespace wherever it stands. *)
Theorem strip_is_redundant_on_ascii (text : list N) :
  forallb is_ascii text = true ->
  decode_content text = b64decode text.
Proof.
  intros Ha. unfold decode_content.
  transitivity (b64decode (List.filter base64_char text)).
  - rewrite <- filter_strip.
    symmetry. now apply b64decode_filter, forallb_strip.
  - now apply b64decode_filter.
Qed.

Lemma strip_is_redundant_on_ascii_witness :
  forallb is_ascii (lit " QU JD  ") = true /\
  decode_content (lit " QU JD  ") = b64decode (lit " QU JD  ").
Proof.
  split; [reflexivity|].
  apply (strip_is_redundant_on_ascii (lit " QU JD  ")). reflexivity.
Defined.

(** X7 (wrapped and spaced input).  An ASCII text that holds the standard
    encoding of [B] with line breaks, spaces or any other characters that
    are neither in the alphabet nor the pad put anywhere between its
    characters decodes to [B]. *)
Theorem interleaved_text_decodes (text : list N) (B : list byte) :
  forallb is_ascii text = true ->
  List.filter base64_char text = b64encode B ->
  decode_content text = inr B.
Proof.
  intros Ha Hf.
  rewrite decode_content_of_ascii by assumption.
  rewrite <- b64decode_filter by assumption.
  rewrite Hf. apply b64decode_b64encode.
Qed.

Lemma interleaved_text_decodes_witness :
  forallb is_ascii ([83; 71; 86; 115; 10; 98; 71; 56; 115; 13; 10; 73; 70;
                     100; 118; 32; 99; 109; 120; 107; 9; 73; 81; 61; 61; 10])
  = true /\
  List.filter base64_char
    [83; 71; 86; 115; 10; 98; 71; 56; 115; 13; 10; 73; 70; 100; 118; 32; 99;
     109; 120; 107; 9; 73; 81; 61; 61; 10]
  = b64encode hello_world /\
  decode_content
    [83; 71; 86; 115; 10; 98; 71; 56; 115; 13; 10; 73; 70; 100; 118; 32; 99;
     109; 120; 107; 9; 73; 81; 61; 61; 10]
  = inr hello_world.
Proof.
  split; [reflexivity|]. split; [reflexivity|].
  apply (interleaved_text_decodes
           [83; 71; 86; 115; 10; 98; 71; 56; 115; 13; 10; 73; 70; 100; 118;
            32; 99; 109; 120; 107; 9; 73; 81; 61; 61; 10] hello_world);
    reflexivity.
Defined.

(** ** What follows an encoding *)

(** Between two quads neither [leftchar] nor [pads] is read. *)
Lemma a2b_loop_between_quads (s : list N) :
  forall leftchar pads leftchar' pads' bin,
    a2b_loop s 0 leftchar pads bin = a2b_loop s 0 leftchar' pads' bin.
Proof.
  induction s as [|ch s IH]; intros leftchar pads leftchar' pads' bin;
    [reflexivity|].
  cbn [a2b_loop N.leb N.compare N.eqb].
  destruct (ch =? BASE64_PAD); [apply IH|].
  destruct (64 <=? table_a2b_base64 ch); [apply IH | reflexivity].
Qed.

Lemma length_mod3_step {A} (a b c : A) (rest : list A) :
  (length (a :: b :: c :: rest) mod 3 = length rest mod 3)%nat.
Proof.
  cbn [length].
  change (S (S (S (length rest)))) with (3 + length rest)%nat.
  rewrite Nat.add_comm. apply (Nat.Div0.mod_add (length rest) 1 3).
Qed.

(** An encoding without padding is decoded and the loop goes on. *)
Lemma a2b_loop_whole_quads (B : list byte) :
  (length B mod 3 = 0)%nat ->
  forall rest leftchar bin,
    a2b_loop (b64encode B ++ rest) 0 leftchar 0 bin
    = a2b_loop rest 0 0 0 (bin ++ B).
Proof.
  induction B as [|a|a b|a b c B IH] using bytes_ind3;
    intros Hlen rest leftchar bin; try discriminate Hlen.
  - cbn [b64encode app]. rewrite app_nil_r. apply a2b_loop_between_quads.
  - rewrite length_mod3_step in Hlen.
    cbn [b64encode app].
    rewrite a2b_loop_quad0 by apply sextet0_lt.
    rewrite a2b_loop_quad1 by apply sextet1_lt.
    rewrite a2b_loop_quad2 by apply sextet2_lt.
    rewrite a2b_loop_quad3 by apply sextet3_lt.
    rewrite byte0_rebuilt, byte1_rebuilt, byte2_rebuilt.
    rewrite IH by assumption. now rewrite <- !app_assoc.
Qed.

(** An encoding that ends in padding ends the decoding. *)
Lemma a2b_loop_padded_quad (B : list byte) :
  (length B mod 3 <> 0)%nat ->
  forall rest leftchar bin,
    a2b_loop (b64encode B ++ rest) 0 leftchar 0 bin = inr (bin ++ B).
Proof.
  induction B as [|a|a b|a b c B IH] using bytes_ind3;
    intros Hlen rest leftchar bin.
  - now contradiction Hlen.
  - cbn [b64encode app].
    rewrite a2b_loop_quad0 by apply sextet0_lt.
    rewrite a2b_loop_quad1 by apply sextet1_lt.
    rewrite byte0_rebuilt. rewrite !a2b_loop_pad. reflexivity.
  - cbn [b64encode app].
    rewrite a2b_loop_quad0 by apply sextet0_lt.
    rewrite a2b_loop_quad1 by apply sextet1_lt.
    rewrite a2b_loop_quad2 by apply sextet2_lt.
    rewrite byte0_rebuilt, byte1_rebuilt. rewrite a2b_loop_pad.
    rewrite <- app_assoc. reflexivity.
  - rewrite length_mod3_step in Hlen.
    cbn [b64encode app].
    rewrite a2b_loop_quad0 by apply sextet0_lt.
    rewrite a2b_loop_quad1 by apply sextet1_lt.
    rewrite a2b_loop_quad2 by apply sextet2_lt.
    rewrite a2b_loop_quad3 by apply sextet3_lt.
    rewrite byte0_rebuilt, byte1_rebuilt, byte2_rebuilt.
    rewrite IH by assumption. now rewrite <- !app_assoc.
Qed.

(** What was decoded before stays in front of what is decoded next. *)
Lemma a2b_loop_prefix (s : list N) :
  forall quad_pos leftchar pads bin pre d,
    a2b_loop s quad_pos leftchar pads bin = inr d ->
    a2b_loop s quad_pos leftchar pads (pre ++ bin) = inr (pre ++ d).
Proof.
  induction s as [|ch s IH]; intros quad_pos leftchar pads bin pre d.
  - cbn [a2b_loop]. unfold a2b_finish.
    destruct (quad_pos =? 0); [now intros [= <-]|].
    destruct (quad_pos =? 1); discriminate.
  - cbn [a2b_loop].
    repeat match goal with
           | |- context [if ?c then _ else _] => destruct c
           end;
      rewrite <- ?app_assoc; first [apply IH | now intros [= <-]].
Qed.

Lemma forallb_app_ascii (s t : list N) :
  forallb is_ascii s = true -> forallb is_ascii t = true ->
  forallb is_ascii (s ++ t) = true.
Proof. intros Hs Ht. now rewrite forallb_app, Hs, Ht. Qed.

(** X8 (nothing is read after the padding).  When the encoding of [B] ends
    in padding (the length of [B] is not a multiple of 3), ASCII text put
    after it is never decoded: the decode step still returns exactly
    [B]. *)
Theorem data_after_padding_is_ignored (B : list byte) (rest : list N) :
  (length B mod 3 <> 0)%nat ->
  forallb is_ascii rest = true ->
  decode_content (b64encode B ++ rest) = inr B.
Proof.
  intros Hlen Ha.
  rewrite decode_content_of_ascii
    by auto using forallb_app_ascii, b64encode_ascii.
  unfold b64decode, a2b_base64.
  rewrite forallb_app_ascii by auto using b64encode_ascii.
  now rewrite a2b_loop_padded_quad.
Qed.

Lemma data_after_padding_is_ignored_witness :
  (length hello_world mod 3 <> 0)%nat /\
  forallb is_ascii (lit "QUJD") = true /\
  decode_content (b64encode hello_world ++ lit "QUJD") = inr hello_world.
Proof.
  split; [cbn; discriminate|]. split; [reflexivity|].
  apply (data_after_padding_is_ignored hello_world (lit "QUJD"));
    [cbn; discriminate | reflexivity].
Defined.

(** X9 (concatenation).  When the length of [B] is a multiple of 3, its
    encoding has no padding and the decoding goes on: if the ASCII text
    [s] decodes to [d], the encoding of [B] followed by [s] decodes to [B]
    followed by [d]. *)
Theorem concatenation_decodes (B : list byte) (s : list N) (d : list byte) :
  (length B mod 3 = 0)%nat ->
  forallb is_ascii s = true ->
  decode_content s = inr d ->
  decode_content (b64encode B ++ s) = inr (B ++ d).
Proof.
  intros Hlen Ha Hd.
  rewrite decode_content_of_ascii in Hd by assumption.
  rewrite decode_content_of_ascii
    by auto using forallb_app_ascii, b64encode_ascii.
  unfold b64decode, a2b_base64 in *.
  rewrite forallb_app_ascii by auto using b64encode_ascii.
  rewrite Ha in Hd.
  rewrite a2b_loop_whole_quads by assumption.
  rewrite <- (app_nil_r ([] ++ B)). cbn [app].
  now apply a2b_loop_prefix.
Qed.

Lemma concatenation_decodes_witness :
  (length abc mod 3 = 0)%nat /\
  forallb is_ascii (lit "SGVsbG8sIFdvcmxkIQ==") = true /\
  decode_content (lit "SGVsbG8sIFdvcmxkIQ==") = inr hello_world /\
  decode_content (b64encode abc ++ lit "SGVsbG8sIFdvcmxkIQ==")
  = inr (abc ++ hello_world).
Proof.
  split; [reflexivity|]. split; [reflexivity|]. split; [reflexivity|].
  apply (concatenation_decodes abc (lit "SGVsbG8sIFdvcmxkIQ==") hello_world);
    reflexivity.
Defined.

(** ** How much is decoded *)

Lemma a2b_loop_length (s : list N) :
  forall quad_pos leftchar pads bin d,
    a2b_loop s quad_pos leftchar pads bin = inr d ->
    (4 * length d
     <= 4 * length bin + 3 * length s + quad_slack quad_pos)%nat.
Proof.
  induction s as [|ch s IH]; intros quad_pos leftchar pads bin d.
  - cbn [a2b_loop]. unfold a2b_finish.
    destruct (quad_pos =? 0); [intros [= <-]; cbn [length]; lia|].
    destruct (quad_pos =? 1); discriminate.
  - cbn [a2b_loop length].
    destruct (ch =? BASE64_PAD).
    { destruct (2 <=? quad_pos); [destruct (4 <=? quad_pos + (pads + 1))|];
        intros H; [injection H as <-; lia | apply IH in H; lia ..]. }
    destruct (64 <=? table_a2b_base64 ch);
      [intros H; apply IH in H; lia|].
    unfold quad_slack at 1.
    destruct (quad_pos =? 0); [|destruct (quad_pos =? 1);
                                 [|destruct (quad_pos =? 2)]];
      intros H; apply IH in H; rewrite ?length_app in H;
      cbn [length quad_slack N.eqb Pos.eqb] in H; lia.
Qed.

Lemma length_lstrip (s : list N) : (length (lstrip s) <= length s)%nat.
Proof.
  induction s as [|ch s IH]; cbn [lstrip length]; [lia|].
  destruct (Py_UNICODE_ISSPACE ch); cbn [length]; lia.
Qed.

Lemma length_strip (s : list N) : (length (strip s) <= length s)%nat.
Proof.
  unfold strip, rstrip. rewrite length_rev.
  pose proof (length_lstrip (rev (lstrip s))) as H1.
  rewrite length_rev in H1. pose proof (length_lstrip s). lia.
Qed.

(** X10 (size of the output).  Whenever the decode step succeeds, the
    decoded buffer holds at most three bytes for every four characters of
    the stripped content, hence of the file's text: the output is never
    longer than 3/4 of the input. *)
Theorem decoded_length_bound (text : list N) (d : list byte) :
  decode_content text = inr d ->
  (4 * length d <= 3 * length (strip text))%nat /\
  (4 * length d <= 3 * length text)%nat.
Proof.
  intros Hd.
  assert (H : (4 * length d <= 3 * length (strip text))%nat).
  { unfold decode_content, b64decode, a2b_base64 in Hd.
    destruct (forallb is_ascii (strip text)); [|discriminate Hd].
    apply a2b_loop_length in Hd. cbn [length quad_slack N.eqb] in Hd. lia. }
  split; [exact H|]. pose proof (length_strip text). lia.
Qed.

Lemma decoded_length_bound_witness :
  decode_content (lit " SGVsbG8sIFdvcmxkIQ== ") = inr hello_world /\
  ((4 * length hello_world
    <= 3 * length (strip (lit " SGVsbG8sIFdvcmxkIQ== ")))%nat /\
   (4 * length hello_world <= 3 * length (lit " SGVsbG8sIFdvcmxkIQ== "))%nat).
Proof.
  split; [reflexivity|].
  apply (decoded_length_bound (lit " SGVsbG8sIFdvcmxkIQ== ") hello_world).
  reflexivity.
Defined.

(** ** Content written with alphabet characters only *)

Lemma a2b_loop_alphabet_length (s : list N) :
  forallb base64_alphabet s = true ->
  forall quad_pos leftchar pads bin,
    quad_pos < 4 ->
    exists bin',
      a2b_loop s quad_pos leftchar pads bin
      = a2b_finish ((quad_pos + N.of_nat (length s)) mod 4) bin' /\
      (4 * length bin'
       + quad_slack ((quad_pos + N.of_nat (length s)) mod 4)
       = 4 * length bin + 3 * length s + quad_slack quad_pos)%nat.
Proof.
  induction s as [|ch s IH]; intros Hs quad_pos leftchar pads bin Hq.
  - exists bin. cbn [a2b_loop length]. rewrite N.add_0_r.
    rewrite N.mod_small by assumption. split; [reflexivity | lia].
  - cbn [forallb] in Hs. apply andb_true_iff in Hs as [Hch Hs].
    destruct (alphabet_is_data ch Hch) as [Hp Ht].
    rewrite a2b_loop_data by assumption. cbv zeta.
    assert (Hlen : forall q', q' < 4 -> (quad_pos + 1) mod 4 = q' ->
              (quad_pos + N.of_nat (length (ch :: s))) mod 4
              = (q' + N.of_nat (length s)) mod 4).
    { intros q' Hq' <-. cbn [length].
      rewrite Nat2N.inj_succ, <- N.add_1_l, N.add_assoc.
      now rewrite N.Div0.add_mod_idemp_l. }
    assert (quad_pos = 0 \/ quad_pos = 1 \/ quad_pos = 2 \/ quad_pos = 3)
      as [-> | [-> | [-> | ->]]] by lia; cbn [N.eqb Pos.eqb].
    + rewrite (Hlen 1) by easy.
      destruct (IH Hs 1 (table_a2b_base64 ch) 0 bin) as (bin' & -> & Hb);
        [lia|].
      exists bin'. split; [reflexivity|].
      rewrite Hb. cbn [length quad_slack N.eqb Pos.eqb]. lia.
    + rewrite (Hlen 2) by easy.
      edestruct (IH Hs 2) as (bin' & -> & Hb); [lia|].
      exists bin'. split; [reflexivity|].
      rewrite Hb, length_app. cbn [length quad_slack N.eqb Pos.eqb]. lia.
    + rewrite (Hlen 3) by easy.
      edestruct (IH Hs 3) as (bin' & -> & Hb); [lia|].
      exists bin'. split; [reflexivity|].
      rewrite Hb, length_app. cbn [length quad_slack N.eqb Pos.eqb]. lia.
    + rewrite (Hlen 0) by easy.
      edestruct (IH Hs 0) as (bin' & -> & Hb); [lia|].
      exists bin'. split; [reflexivity|].
      rewrite Hb, length_app. cbn [length quad_slack N.eqb Pos.eqb]. lia.
Qed.

(** X11 (alphabet-only content).  When the stripped content is written
    with alphabet characters only, the decode step succeeds exactly when
    the length of the content is a multiple of 4, and it then yields
    exactly three bytes for every four characters. *)
Theorem alphabet_only_content (text : list N) :
  forallb base64_alphabet (strip text) = true ->
  ((exists d, decode_content text = inr d)
   <-> (length (strip text) mod 4 = 0)%nat) /\
  (forall d, decode_content text = inr d ->
             (4 * length d = 3 * length (strip text))%nat).
Proof.
  intros Hs. unfold decode_content.
  generalize dependent (strip text). intros s Hs.
  unfold b64decode, a2b_base64.
  rewrite (forallb_impl base64_alphabet is_ascii)
    by auto using alphabet_is_ascii.
  destruct (a2b_loop_alphabet_length s Hs 0 0 0 []) as (bin' & -> & Hb);
    [lia|].
  rewrite N.add_0_l in *.
  change 4 with (N.of_nat 4) in *. rewrite <- Nat2N.inj_mod in *.
  destruct (length s mod 4)%nat as [|r] eqn:Hr.
  - cbn [N.of_nat a2b_finish N.eqb quad_slack length] in *.
    change (quad_slack (N.of_nat 0)) with 0%nat in Hb.
    split; [split; eauto|]. intros d [= <-]. lia.
  - destruct (a2b_finish_open (N.of_nat (S r)) bin') as [e He]; [lia|].
    rewrite He. split; [split|]; [intros [d Hd]| |intros d Hd]; discriminate.
Qed.

Lemma alphabet_only_content_witness :
  forallb base64_alphabet (strip (lit " QUJDQUJD ")) = true /\
  (((exists d, decode_content (lit " QUJDQUJD ") = inr d)
    <-> (length (strip (lit " QUJDQUJD ")) mod 4 = 0)%nat) /\
   (forall d, decode_content (lit " QUJDQUJD ") = inr d ->
              (4 * length d = 3 * length (strip (lit " QUJDQUJD ")))%nat)).
Proof.
  split; [reflexivity|].
  apply (alphabet_only_content (lit " QUJDQUJD ")). reflexivity.
Defined.

(** ** The messages of a failed decode step *)

Lemma a2b_loop_errors (s : list N) :
  forall quad_pos leftchar pads bin e,
    a2b_loop s quad_pos leftchar pads bin = inl e ->
    e = Exception binascii_Error (lit "Incorrect padding") \/
    exists n,
      e = Exception binascii_Error
            (lit "Invalid base64-encoded string: number of data characters ("
             ++ decimal (4 * n + 1)
             ++ lit ") cannot be 1 more than a multiple of 4").
Proof.
  induction s as [|ch s IH]; intros quad_pos leftchar pads bin e.
  - cbn [a2b_loop]. unfold a2b_finish.
    destruct (quad_pos =? 0); [discriminate|].
    destruct (quad_pos =? 1); intros H; [right | left; congruence].
    exists (N.of_nat (length bin) / 3).
    rewrite (N.mul_comm 4). congruence.
  - cbn [a2b_loop].
    repeat match goal with
           | |- context [if ?c then _ else _] => destruct c
           end;
      first [apply IH | discriminate].
Qed.

(** X12 (what a failed decode reports).  When the decode step fails, the
    exception is one of three: the [ValueError] for non-ASCII content,
    [Incorrect padding], or the message that the number of data characters
    is one more than a multiple of 4. *)
Theorem decode_error_messages (text : list N) (e : exn) :
  decode_content text = inl e ->
  e = Exception ValueError
        (lit "string argument should contain only ASCII characters") \/
  e = Exception binascii_Error (lit "Incorrect padding") \/
  exists n,
    e = Exception binascii_Error
          (lit "Invalid base64-encoded string: number of data characters ("
           ++ decimal (4 * n + 1)
           ++ lit ") cannot be 1 more than a multiple of 4").
Proof.
  unfold decode_content, b64decode, a2b_base64.
  destruct (forallb is_ascii (strip text)).
  - intros H. right. now apply a2b_loop_errors in H.
  - intros H. left. congruence.
Qed.

Lemma decode_error_messages_witness :
  decode_content (lit "QUJDQ")
  = inl (Exception binascii_Error
           (lit "Invalid base64-encoded string: number of data characters ("
            ++ decimal (4 * 1 + 1)
            ++ lit ") cannot be 1 more than a multiple of 4")) /\
  (Exception binascii_Error
     (lit "Invalid base64-encoded string: number of data characters ("
      ++ decimal (4 * 1 + 1)
      ++ lit ") cannot be 1 more than a multiple of 4")
   = Exception ValueError
       (lit "string argument should contain only ASCII characters") \/
   Exception binascii_Error
     (lit "Invalid base64-encoded string: number of data characters ("
      ++ decimal (4 * 1 + 1)
      ++ lit ") cannot be 1 more than a multiple of 4")
   = Exception binascii_Error (lit "Incorrect padding") \/
   exists n,
     Exception binascii_Error
       (lit "Invalid base64-encoded string: number of data characters ("
        ++ decimal (4 * 1 + 1)
        ++ lit ") cannot be 1 more than a multiple of 4")
     = Exception binascii_Error
         (lit "Invalid base64-encoded string: number of data characters ("
          ++ decimal (4 * n + 1)
          ++ lit ") cannot be 1 more than a multiple of 4")).
Proof.
  split; [reflexivity|].
  apply (decode_error_messages (lit "QUJDQ")). reflexivity.
Defined.
